(** * LinearAuthButton: the OAuth return, team selection and webhook deployment

    A shallow embedding of [src/components/LinearAuthButton.tsx].  The
    component is a React function component: six state cells, four effects
    and two event handlers, all of which talk to collaborators that return
    promises.  The embedding keeps

    - the component state and the props as records,
    - [window.location.search] as an association list and [localStorage] as
      a finite map,
    - every promise that is still in flight, together with the values its
      continuation closed over when it was created,
    - the calls made to collaborators and callbacks as a trace.

    Effects and continuations are written in a small state/trace/exception
    monad so that they read like the source.  Events (a change of the props,
    a change of the selector, a click on the deploy button, a promise that
    settles) are handled one at a time: the handler runs against the latest
    committed render, its state updates are applied, and the renders and
    effects that follow are run to the end before the next event. *)

From Stdlib Require Import String Ascii List Bool Arith Lia.
From stdpp Require Import base option list strings gmap.
Import ListNotations.

Local Open Scope string_scope.
Local Open Scope list_scope.

(** ** JavaScript values *)

(** A string is truthy unless it is empty. *)
Definition truthy (s : string) : bool := negb (String.eqb s "").

(** [s.includes(sub)] *)
Fixpoint includes (s sub : string) : bool :=
  String.prefix sub s ||
  match s with
  | EmptyString => false
  | String _ rest => includes rest sub
  end.

(** [URLSearchParams]: the pairs in the order of the query string; [get]
    answers with the first pair of that name, or [null]. *)
Definition URLSearchParams := list (string * string).

Fixpoint get (params : URLSearchParams) (name : string) : option string :=
  match params with
  | [] => None
  | (k, v) :: rest => if String.eqb k name then Some v else get rest name
  end.

Definition has (params : URLSearchParams) (name : string) : bool :=
  match get params name with Some _ => true | None => false end.

(** [a !== b] on values that are a string or [null]. *)
Definition strict_neq (a b : option string) : bool :=
  match a, b with
  | Some x, Some y => negb (String.eqb x y)
  | None, None => false
  | _, _ => true
  end.

(** What a [catch] receives: the reason of a rejected collaborator promise
    (already rendered as the text that a template literal would show), or
    the [TypeError] raised by reading a property of [undefined]. *)
Inductive Thrown :=
| Rejection (reason : string)
| TypeError (property : string).

(** The text of [`${err}`].  The wording of a [TypeError] is the engine's. *)
Definition show (e : Thrown) : string :=
  match e with
  | Rejection reason => reason
  | TypeError property =>
      "TypeError: Cannot read properties of undefined (reading '"
        +:+ property +:+ "')"
  end.

(** ** Data *)

(** Modelled from the spec: the declarations of [../typings] are not part of
    the sources at hand; a team descriptor is an id and a display name, a
    user descriptor an id, and the context handed to [onDeployWebhook] the
    three fields the component fills in. *)
Record LinearTeam := { team_id : string; team_name : string }.
Record LinearObject := { id : string }.
Record LinearContext := { userId : string; teamId : string; apiKey : string }.

(** A team descriptor as an object on the heap.  The dependency array
    [[chosenTeam]] and [setChosenTeam] compare with [Object.is], so two
    descriptors with equal fields that arrived in different responses are
    different values. *)
Record TeamObj := { ref : nat; team : LinearTeam }.

Definition same_ref (a b : option TeamObj) : bool :=
  match a, b with
  | Some x, Some y => Nat.eqb (ref x) (ref y)
  | None, None => true
  | _, _ => false
  end.

(** The bodies the collaborators resolve with. *)
Module Response.
(** [exchangeLinearToken]: [{access_token?: string}] *)
Record Token := { access_token : option string }.
(** Modelled from the spec: [getLinearContext] resolves with
    [{teams: {nodes: TeamDescriptor[]}, viewer: {id}}], so a team connection
    that is there carries its array of descriptors.  A connection without
    [nodes] lies outside that contract and outside this model: the handler
    would pass [undefined] to [setTeams] and the next render would raise on
    [teams.length]. *)
Record Connection := { nodes : list LinearTeam }.
(** What the handler itself guards against is optional: the body, [data],
    [teams] and [viewer]; [None] is a field that is not there. *)
Record Data := { teams : option Connection; viewer : option LinearObject }.
Record Context := { data : option Data }.
(** [checkForExistingTeam]: [{exists: boolean}] *)
Record Existing := { exists_ : bool }.
End Response.

Record Props := {
  restoredApiKey : string;
  restored : bool
}.

(** The six [useState] cells. *)
Record State := {
  accessToken : string;
  teams : list TeamObj;
  chosenTeam : option TeamObj;
  user : option LinearObject;
  deployed : bool;
  loading : bool
}.

Definition initial_state : State :=
  {| accessToken := ""; teams := []; chosenTeam := None; user := None;
     deployed := false; loading := false |}.

(** What a render closes over. *)
Record Closure := { c_props : Props; c_state : State }.

(** A promise in flight with the variables its continuation captured. *)
Inductive Pending :=
| AwaitExchange
| AwaitContext
| AwaitCheck (chosen : TeamObj) (usr : option LinearObject) (token : string)
| AwaitSave
| AwaitWebhook (chosen : TeamObj) (usr : option LinearObject) (token : string).

(** Calls that leave the component. *)
Inductive Effect :=
| Alert (msg : string)
| ExchangeLinearToken (refreshToken : option string)
| GetLinearContext (token : string)
| CheckForExistingTeam (teamId : string)
| SaveLinearContext (token : string) (chosen : LinearTeam)
| SetLinearWebhook (token : string) (teamId : string)
| LocationReplace (verificationCode : string)
| OnAuth (apiKey : string)
| OnDeployWebhook (context : LinearContext).

Record World := {
  props : Props;
  state : State;
  search : URLSearchParams;
  localStorage : gmap string string;
  pending : list Pending;
  next_ref : nat
}.

Definition with_state (f : State → State) (w : World) : World :=
  {| props := props w; state := f (state w); search := search w;
     localStorage := localStorage w; pending := pending w;
     next_ref := next_ref w |}.

Definition with_props (p : Props) (w : World) : World :=
  {| props := p; state := state w; search := search w;
     localStorage := localStorage w; pending := pending w;
     next_ref := next_ref w |}.

Definition with_search (q : URLSearchParams) (w : World) : World :=
  {| props := props w; state := state w; search := q;
     localStorage := localStorage w; pending := pending w;
     next_ref := next_ref w |}.

Definition with_storage (f : gmap string string → gmap string string)
    (w : World) : World :=
  {| props := props w; state := state w; search := search w;
     localStorage := f (localStorage w); pending := pending w;
     next_ref := next_ref w |}.

Definition with_pending (f : list Pending → list Pending) (w : World) : World :=
  {| props := props w; state := state w; search := search w;
     localStorage := localStorage w; pending := f (pending w);
     next_ref := next_ref w |}.

Definition with_next_ref (n : nat) (w : World) : World :=
  {| props := props w; state := state w; search := search w;
     localStorage := localStorage w; pending := pending w;
     next_ref := n |}.

Definition closure (w : World) : Closure :=
  {| c_props := props w; c_state := state w |}.

(** ** The monad of handlers *)

Definition Js (A : Type) : Type := World → World * list Effect * (Thrown + A).

Definition ret {A} (a : A) : Js A := fun w => (w, [], inr a).

Definition throw {A} (e : Thrown) : Js A := fun w => (w, [], inl e).

Definition bind {A B} (m : Js A) (k : A → Js B) : Js B := fun w =>
  match m w with
  | (w1, t1, inr a) =>
      match k a w1 with (w2, t2, r) => (w2, t1 ++ t2, r) end
  | (w1, t1, inl e) => (w1, t1, inl e)
  end.

(** [p.catch(h)] for the synchronous part of a continuation. *)
Definition try_catch {A} (m : Js A) (h : Thrown → Js A) : Js A := fun w =>
  match m w with
  | (w1, t1, inl e) =>
      match h e w1 with (w2, t2, r) => (w2, t1 ++ t2, r) end
  | done => done
  end.

Declare Scope js_scope.
Delimit Scope js_scope with js.
Notation "x <- c1 ;; c2" := (bind c1 (fun x => c2))
  (at level 100, c1 at next level, right associativity) : js_scope.
Notation "c1 ;; c2" := (bind c1 (fun _ => c2))
  (at level 100, right associativity) : js_scope.

Definition emit (e : Effect) : Js unit := fun w => (w, [e], inr tt).
Definition modify (f : World → World) : Js unit := fun w => (f w, [], inr tt).
Definition read {A} (f : World → A) : Js A := fun w => (w, [], inr (f w)).
Definition when (b : bool) (m : Js unit) : Js unit := if b then m else ret tt.

Local Open Scope js_scope.

(** Reading property [name] of a value that may be [undefined]. *)
Definition prop {A} (name : string) (o : option A) : Js A :=
  match o with
  | Some a => ret a
  | None => throw (TypeError name)
  end.

(** ** The browser and the collaborators *)

Definition alert (msg : string) : Js unit := emit (Alert msg).

Definition getItem (key : string) : Js (option string) :=
  read (fun w => localStorage w !! key).
Definition setItem (key value : string) : Js unit :=
  modify (with_storage (insert key value)).
Definition removeItem (key : string) : Js unit :=
  modify (with_storage (delete key)).

(** Modelled from the spec: [clearURLParams] lives in [../utils], which is
    not part of the sources at hand; it clears the redirect query parameters
    from the location. *)
Definition clearURLParams : Js unit := modify (with_search []).

(** A collaborator is called and its promise is left in flight. *)
Definition await (p : Pending) (call : Effect) : Js unit :=
  emit call ;; modify (with_pending (fun l => l ++ [p])).

(** ** The state setters *)

Definition set_accessToken (v : string) (s : State) : State :=
  {| accessToken := v; teams := teams s; chosenTeam := chosenTeam s;
     user := user s; deployed := deployed s; loading := loading s |}.

Definition set_teams (v : list TeamObj) (s : State) : State :=
  {| accessToken := accessToken s; teams := v; chosenTeam := chosenTeam s;
     user := user s; deployed := deployed s; loading := loading s |}.

Definition set_chosenTeam (v : option TeamObj) (s : State) : State :=
  {| accessToken := accessToken s; teams := teams s; chosenTeam := v;
     user := user s; deployed := deployed s; loading := loading s |}.

Definition set_user (v : option LinearObject) (s : State) : State :=
  {| accessToken := accessToken s; teams := teams s;
     chosenTeam := chosenTeam s; user := v; deployed := deployed s;
     loading := loading s |}.

Definition set_deployed (v : bool) (s : State) : State :=
  {| accessToken := accessToken s; teams := teams s;
     chosenTeam := chosenTeam s; user := user s; deployed := v;
     loading := loading s |}.

Definition set_loading (v : bool) (s : State) : State :=
  {| accessToken := accessToken s; teams := teams s;
     chosenTeam := chosenTeam s; user := user s; deployed := deployed s;
     loading := v |}.

Definition setAccessToken (v : string) : Js unit :=
  modify (with_state (set_accessToken v)).
Definition setChosenTeam (v : option TeamObj) : Js unit :=
  modify (with_state (set_chosenTeam v)).
Definition setUser (v : option LinearObject) : Js unit :=
  modify (with_state (set_user v)).
Definition setDeployed (v : bool) : Js unit :=
  modify (with_state (set_deployed v)).
Definition setLoading (v : bool) : Js unit :=
  modify (with_state (set_loading v)).

(** The descriptors of a response are fresh objects. *)
Definition allocate (from : nat) (l : list LinearTeam) : list TeamObj :=
  imap (fun i t => {| ref := from + i; team := t |}) l.

Definition setTeams (v : list LinearTeam) : Js unit :=
  modify (fun w =>
    with_next_ref (next_ref w + length v)
      (with_state (set_teams (allocate (next_ref w) v)) w)).

(** [user?.id] as a condition *)
Definition user_id_truthy (u : option LinearObject) : bool :=
  match u with
  | Some o => truthy (id o)
  | None => false
  end.

(** [s?.includes(sub)] as a condition *)
Definition optional_includes (s : option string) (sub : string) : bool :=
  match s with
  | Some x => includes x sub
  | None => false
  end.

Section Component.

(** [LINEAR.STORAGE_KEY] is declared in [../utils/constants], which is not
    part of the sources at hand. *)
Variable STORAGE_KEY : string.

(** ** The token exchange (lines 38-71) *)

Definition exchange_then (body : Response.Token) : Js unit :=
  (match Response.access_token body with
   | Some token =>
       if truthy token then setAccessToken token
       else
         alert "No Linear access token returned. Please try again." ;;
         clearURLParams ;;
         removeItem STORAGE_KEY
   | None =>
       alert "No Linear access token returned. Please try again." ;;
       clearURLParams ;;
       removeItem STORAGE_KEY
   end) ;;
  setLoading false.

Definition exchange_catch (err : Thrown) : Js unit :=
  alert ("Error fetching access token: " +:+ show err) ;;
  setLoading false.

Definition effect_exchange (c : Closure) : Js unit :=
  if truthy (accessToken (c_state c)) then ret tt else
  authResponse <- read search ;;
  if negb (has authResponse "code") then ret tt else
  verificationCode <- getItem "linear-verification" ;;
  if negb (optional_includes (get authResponse "state") "linear") then ret tt
  else
  if strict_neq (get authResponse "state") verificationCode then
    alert "Linear auth returned an invalid code. Please try again."
  else
  setLoading true ;;
  let refreshToken := get authResponse "code" in
  await AwaitExchange (ExchangeLinearToken refreshToken).

(** ** Restoring the key (lines 74-76) *)

Definition effect_restore (c : Closure) : Js unit :=
  when (truthy (restoredApiKey (c_props c)))
    (setAccessToken (restoredApiKey (c_props c))).

(** ** The context fetch (lines 79-94) *)

(** [!res?.data?.teams || !res.data?.viewer]: the second operand is only
    evaluated when the first found [res.data]. *)
Definition lacks_teams_or_viewer (res : option Response.Context) : bool :=
  match res with
  | Some r =>
      match Response.data r with
      | Some d =>
          match Response.teams d with
          | Some _ =>
              match Response.viewer d with Some _ => false | None => true end
          | None => true
          end
      | None => true
      end
  | None => true
  end.

Definition context_then (res : option Response.Context) : Js unit :=
  when (lacks_teams_or_viewer res) (alert "No Linear user or teams found") ;;
  r <- prop "data" res ;;
  d <- prop "teams" (Response.data r) ;;
  t <- prop "nodes" (Response.teams d) ;;
  setTeams (Response.nodes t) ;;
  setUser (Response.viewer d).

Definition context_catch (err : Thrown) : Js unit :=
  alert ("Error fetching labels: " +:+ show err).

Definition effect_context (c : Closure) : Js unit :=
  if negb (truthy (accessToken (c_state c))) then ret tt else
  if user_id_truthy (user (c_state c)) then ret tt else
  emit (OnAuth (accessToken (c_state c))) ;;
  await AwaitContext (GetLinearContext (accessToken (c_state c))).

(** ** The dedup check (lines 97-120) *)

(** [res?.exists] as a condition *)
Definition res_exists (res : option Response.Existing) : bool :=
  match res with
  | Some r => Response.exists_ r
  | None => false
  end.

Definition check_then (chosen : TeamObj) (usr : option LinearObject)
    (token : string) (res : option Response.Existing) : Js unit :=
  (if res_exists res then
     setDeployed true ;;
     u <- prop "id" usr ;;
     emit (OnDeployWebhook
             {| userId := id u; teamId := team_id (team chosen);
                apiKey := token |})
   else setDeployed false) ;;
  setLoading false.

Definition check_catch (err : Thrown) : Js unit :=
  alert ("Error checking for existing labels: " +:+ show err) ;;
  setLoading false.

Definition effect_check (c : Closure) : Js unit :=
  match chosenTeam (c_state c) with
  | None => ret tt
  | Some chosen =>
      setLoading true ;;
      await (AwaitCheck chosen (user (c_state c)) (accessToken (c_state c)))
            (CheckForExistingTeam (team_id (team chosen)))
  end.

(** ** Starting the authorization (lines 122-129) *)

(** [uuid()] is the argument; [getLinearAuthURL] builds the address from the
    verification code, and the navigation ends this instance of the
    component. *)
Definition openLinearAuth (uuid : string) : Js unit :=
  let verificationCode := "linear-" +:+ uuid in
  setItem "linear-verification" verificationCode ;;
  emit (LocationReplace verificationCode).

(** ** The deployment (lines 131-150) *)

Definition save_catch (err : Thrown) : Js unit :=
  alert ("Error saving labels to DB: " +:+ show err).

Definition webhook_then (chosen : TeamObj) (usr : option LinearObject)
    (token : string) : Js unit :=
  setDeployed true ;;
  u <- prop "id" usr ;;
  emit (OnDeployWebhook
          {| userId := id u; teamId := team_id (team chosen);
             apiKey := token |}).

Definition webhook_catch (err : Thrown) : Js unit :=
  alert ("Error deploying webhook: " +:+ show err).

Definition deployWebhook (c : Closure) : Js unit :=
  match chosenTeam (c_state c) with
  | None => ret tt
  | Some chosen =>
      if deployed (c_state c) then ret tt else
      await AwaitSave
            (SaveLinearContext (accessToken (c_state c)) (team chosen)) ;;
      await (AwaitWebhook chosen (user (c_state c)) (accessToken (c_state c)))
            (SetLinearWebhook (accessToken (c_state c))
                              (team_id (team chosen))) ;;
      setDeployed true
  end.

(** ** The team selector (lines 175-179) *)

Definition onChange (c : Closure) (value : string) : Js unit :=
  setChosenTeam
    (List.find (fun t => String.eqb (team_id (team t)) value)
               (teams (c_state c))).

(** ** Rendering and effects *)

(** The values the dependency arrays [[restoredApiKey]], [[accessToken]] and
    [[chosenTeam]] are compared on. *)
Record Deps := {
  dep_restoredApiKey : string;
  dep_accessToken : string;
  dep_chosenTeam : option TeamObj
}.

Definition deps (c : Closure) : Deps :=
  {| dep_restoredApiKey := restoredApiKey (c_props c);
     dep_accessToken := accessToken (c_state c);
     dep_chosenTeam := chosenTeam (c_state c) |}.

Definition deps_eqb (a b : Deps) : bool :=
  String.eqb (dep_restoredApiKey a) (dep_restoredApiKey b)
  && String.eqb (dep_accessToken a) (dep_accessToken b)
  && same_ref (dep_chosenTeam a) (dep_chosenTeam b).

(** One commit after the first: the effects whose dependency changed since
    the previous commit run in source order, all closed over the same
    render.  The effect with the empty dependency array does not run again. *)
Definition commit (prev : Deps) (c : Closure) : Js unit :=
  when (negb (String.eqb (dep_restoredApiKey prev)
                         (restoredApiKey (c_props c))))
       (effect_restore c) ;;
  when (negb (String.eqb (dep_accessToken prev) (accessToken (c_state c))))
       (effect_context c) ;;
  when (negb (same_ref (dep_chosenTeam prev) (chosenTeam (c_state c))))
       (effect_check c).

(** Renders follow one another while the state set by the effects of one
    commit changes a dependency of the next. *)
Fixpoint flush (fuel : nat) (prev : Deps) : Js unit :=
  match fuel with
  | 0 => ret tt
  | S n =>
      c <- read closure ;;
      if deps_eqb prev (deps c) then ret tt
      else commit prev c ;; flush n (deps c)
  end.

Definition rerender (prev : Deps) : Js unit := flush 3 prev.

(** The first commit runs the four effects, closed over the first render. *)
Definition mount : Js unit :=
  c <- read closure ;;
  effect_exchange c ;;
  effect_restore c ;;
  effect_context c ;;
  effect_check c ;;
  rerender (deps c).

Definition initial_world (p : Props) (q : URLSearchParams)
    (ls : gmap string string) : World :=
  {| props := p; state := initial_state; search := q; localStorage := ls;
     pending := []; next_ref := 0 |}.

Definition mounted (p : Props) (q : URLSearchParams)
    (ls : gmap string string) : World * list Effect :=
  match mount (initial_world p q ls) with (w, t, _) => (w, t) end.

(** ** Events *)

(** How a promise in flight settles. *)
Inductive Settlement :=
| ExchangeResolved (body : Response.Token)
| ContextResolved (res : option Response.Context)
| CheckResolved (res : option Response.Existing)
| SaveResolved
| WebhookResolved
| Rejected (err : string).

(** What a mounted instance goes through and lives on after: new props, a
    change of the selector, a click on the deploy button, a promise that
    settles.  The click on the connect button is not among them: it runs
    [openLinearAuth], which navigates away and ends the instance; it is an
    [Input] of its own below. *)
Inductive Event :=
| SetProps (p : Props)
| Change (value : string)
| ClickDeploy
| Settle (i : nat) (o : Settlement).

(** The [then]/[catch] chain attached to each promise. *)
Definition settle (p : Pending) (o : Settlement) : option (Js unit) :=
  match p, o with
  | AwaitExchange, ExchangeResolved body =>
      Some (try_catch (exchange_then body) exchange_catch)
  | AwaitExchange, Rejected err => Some (exchange_catch (Rejection err))
  | AwaitContext, ContextResolved res =>
      Some (try_catch (context_then res) context_catch)
  | AwaitContext, Rejected err => Some (context_catch (Rejection err))
  | AwaitCheck chosen usr token, CheckResolved res =>
      Some (try_catch (check_then chosen usr token res) check_catch)
  | AwaitCheck _ _ _, Rejected err => Some (check_catch (Rejection err))
  | AwaitSave, SaveResolved => Some (ret tt)
  | AwaitSave, Rejected err => Some (save_catch (Rejection err))
  | AwaitWebhook chosen usr token, WebhookResolved =>
      Some (try_catch (webhook_then chosen usr token) webhook_catch)
  | AwaitWebhook _ _ _, Rejected err => Some (webhook_catch (Rejection err))
  | _, _ => None
  end.

Definition handler (w : World) (ev : Event) : option (Js unit) :=
  match ev with
  | SetProps p => Some (modify (with_props p))
  | Change value => Some (onChange (closure w) value)
  | ClickDeploy => Some (deployWebhook (closure w))
  | Settle i o =>
      match pending w !! i with
      | Some p =>
          match settle p o with
          | Some k => Some (modify (with_pending (delete i)) ;; k)
          | None => None
          end
      | None => None
      end
  end.

(** A handler runs against the latest render, then the component renders
    again and the effects are flushed.  No handler lets an exception escape
    (lemma [handler_summary]), so the outcome of the handler is not looked
    at. *)
Definition fire (w : World) (ev : Event) : option (World * list Effect) :=
  match handler w ev with
  | Some h =>
      match (h ;; rerender (deps (closure w))) w with
      | (w', t, _) => Some (w', t)
      end
  | None => None
  end.

(** What the markup lets the user do (lines 170-196): the selector and the
    deploy button are rendered when there are teams and [restored] holds,
    the selector is disabled while [deployed || loading], the button needs a
    chosen team.  [DeployButton] is not part of the sources at hand; every
    click on it is taken to reach [onDeploy].  Props change and promises
    settle whenever the outside pleases. *)
Definition selector_rendered (w : World) : bool :=
  (0 <? length (teams (state w)))%nat && restored (props w).

Definition enabled (w : World) (ev : Event) : bool :=
  match ev with
  | Change _ =>
      selector_rendered w
      && negb (deployed (state w) || loading (state w))
  | ClickDeploy =>
      selector_rendered w
      && match chosenTeam (state w) with Some _ => true | None => false end
  | SetProps _ | Settle _ _ => true
  end.

Definition step (w : World) (ev : Event) : option (World * list Effect) :=
  if enabled w ev then fire w ev else None.



Fixpoint run (f : World → Event → option (World * list Effect))
    (w : World) (evs : list Event) : option (World * list Effect) :=
  match evs with
  | [] => Some (w, [])
  | ev :: rest =>
      match f w ev with
      | Some (w1, t1) =>
          match run f w1 rest with
          | Some (w2, t2) => Some (w2, t1 ++ t2)
          | None => None
          end
      | None => None
      end
  end.

(** Worlds reached from [w] through worlds that all satisfy [P]. *)
Inductive reach (f : World → Event → option (World * list Effect))
    (P : World → Prop) : World → World → Prop :=
| reach_here w : P w → reach f P w w
| reach_step w w1 w2 ev t :
    reach f P w w1 → f w1 ev = Some (w2, t) → P w2 → reach f P w w2.

(** A run from [w] to [w'] through worlds that all satisfy [P]. *)
Fixpoint run_through (f : World → Event → option (World * list Effect))
    (P : World → Prop) (w : World) (evs : list Event) (w' : World) : Prop :=
  match evs with
  | [] => w' = w
  | ev :: rest =>
      ∃ w1 t, f w ev = Some (w1, t) ∧ P w1 ∧ run_through f P w1 rest w'
  end.

End Component.

(** * Closed forms

    What the effects, a commit, a render round, the first commit and the
    handlers amount to, as plain functions on worlds; the lemmas below prove
    them equal to the monadic definitions above. *)

(** ** Closed forms of the effects *)

Definition wants_context (c : Closure) : bool :=
  truthy (accessToken (c_state c)) && negb (user_id_truthy (user (c_state c))).

(** ** Closed form of a commit *)

Section Commit.

Variables (prev : Deps) (c : Closure).

(** Which effects a commit runs to an end. *)
Definition restores : bool :=
  negb (String.eqb (dep_restoredApiKey prev) (restoredApiKey (c_props c)))
  && truthy (restoredApiKey (c_props c)).

Definition fetches : bool :=
  negb (String.eqb (dep_accessToken prev) (accessToken (c_state c)))
  && wants_context c.

Definition checks : option TeamObj :=
  if same_ref (dep_chosenTeam prev) (chosenTeam (c_state c)) then None
  else chosenTeam (c_state c).

Definition commit_pending : list Pending :=
  (if fetches then [AwaitContext] else [])
  ++ match checks with
     | Some chosen =>
         [AwaitCheck chosen (user (c_state c)) (accessToken (c_state c))]
     | None => []
     end.

Definition commit_trace : list Effect :=
  (if fetches
   then [OnAuth (accessToken (c_state c));
         GetLinearContext (accessToken (c_state c))]
   else [])
  ++ match checks with
     | Some chosen => [CheckForExistingTeam (team_id (team chosen))]
     | None => []
     end.

Definition commit_state (s : State) : State :=
  {| accessToken :=
       if restores then restoredApiKey (c_props c) else accessToken s;
     teams := teams s; chosenTeam := chosenTeam s; user := user s;
     deployed := deployed s;
     loading := match checks with Some _ => true | None => loading s end |}.

Definition commit_world (w : World) : World :=
  {| props := props w; state := commit_state (state w); search := search w;
     localStorage := localStorage w;
     pending := pending w ++ commit_pending; next_ref := next_ref w |}.

End Commit.

(** ** Closed form of a render round *)

Section Rerender.

Variables (prev : Deps) (w : World).

(** The token after the first commit, and whether the second commit
    requests the context with it. *)
Definition restored_token : string :=
  if restores prev (closure w) then restoredApiKey (props w)
  else accessToken (state w).

Definition fetches_again : bool :=
  negb (String.eqb (accessToken (state w)) restored_token)
  && truthy restored_token
  && negb (user_id_truthy (user (state w))).

Definition rerender_pending : list Pending :=
  commit_pending prev (closure w)
  ++ (if fetches_again then [AwaitContext] else []).

Definition rerender_trace : list Effect :=
  commit_trace prev (closure w)
  ++ (if fetches_again
      then [OnAuth restored_token; GetLinearContext restored_token]
      else []).

Definition rerender_world : World :=
  {| props := props w; state := commit_state prev (closure w) (state w);
     search := search w; localStorage := localStorage w;
     pending := pending w ++ rerender_pending; next_ref := next_ref w |}.

End Rerender.

(** ** The deployment *)

(** How often a trace calls [setLinearWebhook]. *)
Definition is_webhook_call (e : Effect) : bool :=
  match e with SetLinearWebhook _ _ => true | _ => false end.

Definition webhook_calls (t : list Effect) : nat :=
  length (List.filter is_webhook_call t).

(** The world after [deployWebhook] has passed its guard. *)
Definition deploying (chosen : TeamObj) (w : World) : World :=
  with_state (set_deployed true)
    (with_pending
       (λ l, l ++ [AwaitSave;
                   AwaitWebhook chosen (user (state w))
                                (accessToken (state w))]) w).

(** ** The context fetch *)

(** The state after [setTeams(nodes); setUser(viewer)]. *)
Definition context_stored (nodes : list LinearTeam)
    (viewer : option LinearObject) (w : World) : World :=
  with_state (set_user viewer)
    (with_next_ref (next_ref w + length nodes)
       (with_state (set_teams (allocate (next_ref w) nodes)) w)).

(** The reading that fails in [res.data.teams.nodes] when the team list is
    not there. *)
Definition missing_property (res : option Response.Context) : option string :=
  match res with
  | None => Some "data"
  | Some r =>
      match Response.data r with
      | None => Some "teams"
      | Some d =>
          match Response.teams d with
          | None => Some "nodes"
          | Some _ => None
          end
      end
  end.

(** ** The first commit *)

(** The four ways the exchange effect can go on the first commit. *)
Inductive Return :=
| NoCode
| ForeignFlow
| Mismatch
| Verified (code : option string).

Definition return_kind (q : URLSearchParams) (stored : option string) : Return :=
  if negb (has q "code") then NoCode
  else if negb (optional_includes (get q "state") "linear") then ForeignFlow
  else if strict_neq (get q "state") stored then Mismatch
  else Verified (get q "code").

Definition exchange_trace (k : Return) : list Effect :=
  match k with
  | NoCode | ForeignFlow => []
  | Mismatch =>
      [Alert "Linear auth returned an invalid code. Please try again."]
  | Verified code => [ExchangeLinearToken code]
  end.

(** A restored key is stored and the context is requested with it. *)
Definition restore_trace (p : Props) : list Effect :=
  if truthy (restoredApiKey p)
  then [OnAuth (restoredApiKey p); GetLinearContext (restoredApiKey p)]
  else [].

Definition mounted_world (p : Props) (q : URLSearchParams)
    (ls : gmap string string) : World :=
  let k := return_kind q (ls !! "linear-verification") in
  {| props := p;
     state :=
       {| accessToken := restoredApiKey p; teams := []; chosenTeam := None;
          user := None; deployed := false;
          loading := match k with Verified _ => true | _ => false end |};
     search := q; localStorage := ls;
     pending :=
       match k with Verified _ => [AwaitExchange] | _ => [] end
       ++ (if truthy (restoredApiKey p) then [AwaitContext] else []);
     next_ref := 0 |}.

(** ** What a handler leaves behind *)

(** The promises whose continuations clear [loading], and the dedup checks
    among them. *)
Definition clears_loading (p : Pending) : bool :=
  match p with
  | AwaitExchange | AwaitCheck _ _ _ => true
  | _ => false
  end.

Definition is_check (p : Pending) : bool :=
  match p with AwaitCheck _ _ _ => true | _ => false end.

Definition handled_pending (w : World) (ev : Event) : list Pending :=
  match ev with
  | Settle i _ => delete i (pending w)
  | ClickDeploy =>
      match chosenTeam (state w) with
      | Some chosen =>
          if deployed (state w) then pending w
          else pending w ++ [AwaitSave;
                             AwaitWebhook chosen (user (state w))
                                          (accessToken (state w))]
      | None => pending w
      end
  | SetProps _ | Change _ => pending w
  end.

Definition handled_loading (w : World) (ev : Event) : bool :=
  match ev with
  | Settle i _ =>
      match pending w !! i with
      | Some p => if clears_loading p then false else loading (state w)
      | None => loading (state w)
      end
  | _ => loading (state w)
  end.

Definition handled_chosenTeam (w : World) (ev : Event) : option TeamObj :=
  match ev with
  | Change value =>
      List.find (λ t, String.eqb (team_id (team t)) value) (teams (state w))
  | _ => chosenTeam (state w)
  end.

(** The promises in flight whose continuation clears [loading]. *)
Definition in_flight (w : World) : list Pending :=
  List.filter clears_loading (pending w).

(** ** Before the user is known *)

Definition unpopulated (w : World) : Prop := user (state w) = None.

(** ** The selector is closed while a check is in flight *)

(** At most one promise that clears [loading] is in flight, and [loading] is
    set while there is one. *)
Definition one_in_flight (w : World) : Prop :=
  (length (in_flight w) ≤ 1)%nat
  ∧ (in_flight w ≠ [] → loading (state w) = true).


(** ** What a handler leaves behind, cell by cell *)

Definition handled_props (w : World) (ev : Event) : Props :=
  match ev with
  | SetProps p => p
  | _ => props w
  end.

(** Whether the event is an exchange that resolves, and with which body. *)
Definition exchanged (w : World) (ev : Event) : option Response.Token :=
  match ev with
  | Settle i (ExchangeResolved body) =>
      match pending w !! i with
      | Some AwaitExchange => Some body
      | _ => None
      end
  | _ => None
  end.

(** [body.access_token] as a condition, with the token it lets through. *)
Definition usable_token (body : Response.Token) : option string :=
  match Response.access_token body with
  | Some token => if truthy token then Some token else None
  | None => None
  end.

Definition handled_accessToken (w : World) (ev : Event) : string :=
  match exchanged w ev with
  | Some body =>
      match usable_token body with
      | Some token => token
      | None => accessToken (state w)
      end
  | None => accessToken (state w)
  end.

Definition handled_storage (key : string) (w : World) (ev : Event)
    : gmap string string :=
  match exchanged w ev with
  | Some body =>
      match usable_token body with
      | Some _ => localStorage w
      | None => delete key (localStorage w)
      end
  | None => localStorage w
  end.

Definition handled_search (w : World) (ev : Event) : URLSearchParams :=
  match exchanged w ev with
  | Some body =>
      match usable_token body with
      | Some _ => search w
      | None => []
      end
  | None => search w
  end.

Definition handled_deployed (w : World) (ev : Event) : bool :=
  match ev with
  | ClickDeploy =>
      match chosenTeam (state w) with
      | Some _ => true
      | None => deployed (state w)
      end
  | Settle i o =>
      match pending w !! i, o with
      | Some (AwaitCheck _ _ _), CheckResolved res => res_exists res
      | Some (AwaitWebhook _ _ _), WebhookResolved => true
      | _, _ => deployed (state w)
      end
  | _ => deployed (state w)
  end.

(** The calls a handler makes itself, and the calls an effect makes. *)
Definition handler_effect (e : Effect) : bool :=
  match e with
  | Alert _ | SaveLinearContext _ _ | SetLinearWebhook _ _
  | OnDeployWebhook _ => true
  | _ => false
  end.

Definition render_effect (e : Effect) : bool :=
  match e with
  | OnAuth _ | GetLinearContext _ | CheckForExistingTeam _ => true
  | _ => false
  end.

Definition is_exchange_call (e : Effect) : bool :=
  match e with ExchangeLinearToken _ => true | _ => false end.

(** The connect button (line 156): [disabled={!!accessToken || loading}]. *)
Definition connect_disabled (w : World) : bool :=
  truthy (accessToken (state w)) || loading (state w).

(** [loading] is set exactly while a promise that clears it is in flight,
    and there is at most one. *)
Definition loading_tracks_flight (w : World) : Prop :=
  (length (in_flight w) ≤ 1)%nat
  ∧ (in_flight w ≠ [] → loading (state w) = true)
  ∧ (in_flight w = [] → loading (state w) = false).

(** The team is deployed for good: [deployed] is set and no dedup check is
    in flight that could clear it. *)
Definition deployed_for_good (w : World) : Prop :=
  deployed (state w) = true
  ∧ ∀ pd, In pd (pending w) → is_check pd = false.


Definition is_webhook (p : Pending) : bool :=
  match p with AwaitWebhook _ _ _ => true | _ => false end.


(** * Scenarios *)

Definition example_key : string := "linear-context".

Definition team_one : LinearTeam := {| team_id := "T1"; team_name := "One" |}.
Definition team_two : LinearTeam := {| team_id := "T2"; team_name := "Two" |}.

Definition restored_props : Props :=
  {| restoredApiKey := "lin_api_1"; restored := true |}.

Definition fresh_props : Props := {| restoredApiKey := ""; restored := true |}.

(** A context with two teams and a viewer, and one without the viewer. *)
Definition full_context : option Response.Context :=
  Some {| Response.data :=
            Some {| Response.teams :=
                      Some {| Response.nodes := [team_one; team_two] |};
                    Response.viewer := Some {| id := "U1" |} |} |}.

Definition context_without_viewer : option Response.Context :=
  Some {| Response.data :=
            Some {| Response.teams :=
                      Some {| Response.nodes := [team_one] |};
                    Response.viewer := None |} |}.

Definition installed : option Response.Existing :=
  Some {| Response.exists_ := true |}.
Definition not_installed : option Response.Existing :=
  Some {| Response.exists_ := false |}.

(** The location and the storage of a return from the authorization page. *)
Definition return_search : URLSearchParams :=
  [("code", "abc"); ("state", "linear-1234")].
Definition return_storage : gmap string string :=
  {["linear-verification" := "linear-1234"]}.

Definition world_after (f : World → Event → option (World * list Effect))
    (w : World) (evs : list Event) : World :=
  match run f w evs with
  | Some (w', _) => w'
  | None => w
  end.

Definition trace_after (f : World → Event → option (World * list Effect))
    (w : World) (evs : list Event) : list Effect :=
  match run f w evs with
  | Some (_, t) => t
  | None => []
  end.

(** The session is restored, the context has arrived, [T1] is selected and
    its check is in flight. *)
Definition checking_world : World :=
  world_after (step example_key) (mounted restored_props [] ∅).1
    [Settle 0 (ContextResolved full_context); Change "T1"].


(** The same after the check has answered that nothing is installed. *)
Definition checked_world : World :=
  world_after (step example_key) checking_world
    [Settle 0 (CheckResolved not_installed)].

(** The context arrived without a viewer, and [T1] was selected. *)
Definition userless_world : World :=
  world_after (step example_key) (mounted restored_props [] ∅).1
    [Settle 0 (ContextResolved context_without_viewer); Change "T1"].

(** The context arrives without a viewer; [T1] is selected, found not to be
    installed, and deployed. *)
Definition proceeding : list Event :=
  [Settle 0 (ContextResolved context_without_viewer); Change "T1";
   Settle 0 (CheckResolved not_installed); ClickDeploy].

(** A verified return is being exchanged; a context is stored under the
    key. *)
Definition exchanging_world : World :=
  (mounted fresh_props return_search
     (<[example_key := "saved"]> return_storage)).1.

(** [T1] is selected, then [T2] while the check of [T1] is in flight, then
    the check of [T1] answers. *)
Definition reselection : list Event :=
  [Settle 0 (ContextResolved full_context); Change "T1"; Change "T2";
   Settle 0 (CheckResolved installed)].

Definition object_one : TeamObj := {| ref := 0; team := team_one |}.
Definition object_two : TeamObj := {| ref := 1; team := team_two |}.

(** [T1] is being deployed from [checked_world], and the same after the
    save has gone through. *)
Definition deploying_world : World :=
  world_after (step example_key) checked_world [ClickDeploy].

Definition saved_world : World :=
  world_after (step example_key) deploying_world [Settle 0 SaveResolved].

(** [T1] is being deployed although no viewer arrived with the context. *)
Definition userless_deploying_world : World :=
  world_after (fire example_key) userless_world [ClickDeploy].

(** The exchange resolves with a token, and without one. *)
Definition exchange_with_token : Event :=
  Settle 0 (ExchangeResolved {| Response.access_token := Some "tok" |}).


(** * Properties *)

Section Properties.

Variable STORAGE_KEY : string.

Local Abbreviation fire := (fire STORAGE_KEY).
Local Abbreviation step := (step STORAGE_KEY).

(** ** Comparisons *)

Lemma same_ref_refl (a : option TeamObj) : same_ref a a = true.
Proof. destruct a as [x|]; simpl; [apply Nat.eqb_refl | reflexivity]. Qed.

Lemma deps_eqb_refl (d : Deps) : deps_eqb d d = true.
Proof.
  unfold deps_eqb. rewrite !String.eqb_refl, same_ref_refl. reflexivity.
Qed.

(** A verification code written by [openLinearAuth] carries the marker. *)
Lemma verification_code_has_marker (uuid : string) :
  includes ("linear-" +:+ uuid) "linear" = true.
Proof. reflexivity. Qed.

(** ** Rendering settles *)

Lemma effect_restore_eq (c : Closure) (w : World) :
  effect_restore c w =
  (if truthy (restoredApiKey (c_props c))
   then with_state (set_accessToken (restoredApiKey (c_props c))) w
   else w, [], inr tt).
Proof. unfold effect_restore, when. destruct (truthy _); reflexivity. Qed.

Lemma effect_context_eq (c : Closure) (w : World) :
  effect_context c w =
  if wants_context c
  then (with_pending (λ l, l ++ [AwaitContext]) w,
        [OnAuth (accessToken (c_state c));
         GetLinearContext (accessToken (c_state c))], inr tt)
  else (w, [], inr tt).
Proof.
  unfold effect_context, wants_context.
  destruct (truthy _); simpl; [|reflexivity].
  destruct (user_id_truthy _); reflexivity.
Qed.

Lemma effect_check_eq (c : Closure) (w : World) :
  effect_check c w =
  match chosenTeam (c_state c) with
  | Some chosen =>
      (with_pending
         (λ l, l ++ [AwaitCheck chosen (user (c_state c))
                                (accessToken (c_state c))])
         (with_state (set_loading true) w),
       [CheckForExistingTeam (team_id (team chosen))], inr tt)
  | None => (w, [], inr tt)
  end.
Proof. unfold effect_check. destruct (chosenTeam _); reflexivity. Qed.

Lemma commit_eq (prev : Deps) (c : Closure) (w : World) :
  commit prev c w = (commit_world prev c w, commit_trace prev c, inr tt).
Proof.
  unfold commit, when, bind.
  unfold commit_world, commit_state, commit_trace, commit_pending, restores,
    fetches, checks.
  destruct w as [pr [tok ts ch us dp ld] q ls pd nr].
  destruct (negb (dep_restoredApiKey prev =? _)%string); simpl;
    [rewrite effect_restore_eq; destruct (truthy (restoredApiKey _)); simpl|];
    (destruct (negb (dep_accessToken prev =? _)%string); simpl;
      [rewrite effect_context_eq; destruct (wants_context c); simpl|]);
    (destruct (same_ref _ _); simpl;
      [|rewrite effect_check_eq; destruct (chosenTeam (c_state c)); simpl]);
    unfold with_pending, with_state; simpl;
    rewrite ?app_nil_r, <- ?app_assoc; reflexivity.
Qed.

Lemma flush_S (n : nat) (prev : Deps) (w : World) :
  flush (S n) prev w =
  if deps_eqb prev (deps (closure w)) then (w, [], inr tt)
  else
    match flush n (deps (closure w)) (commit_world prev (closure w) w) with
    | (w2, t2, r) => (w2, commit_trace prev (closure w) ++ t2, r)
    end.
Proof.
  simpl. unfold bind at 1. unfold read at 1.
  destruct (deps_eqb _ _); [reflexivity|].
  unfold bind. rewrite commit_eq.
  destruct (flush n _ _) as [[w2 t2] r]. reflexivity.
Qed.

Lemma flush_stable (n : nat) (w : World) :
  flush n (deps (closure w)) w = (w, [], inr tt).
Proof.
  destruct n as [|n]; [reflexivity|].
  rewrite flush_S, deps_eqb_refl. reflexivity.
Qed.

(** A commit changes no dependency but the access token, and that only by
    restoring the key. *)
Lemma commit_deps (prev : Deps) (c : Closure) (w : World) :
  deps (closure (commit_world prev c w)) =
  {| dep_restoredApiKey := restoredApiKey (props w);
     dep_accessToken :=
       if restores prev c then restoredApiKey (c_props c)
       else accessToken (state w);
     dep_chosenTeam := chosenTeam (state w) |}.
Proof. reflexivity. Qed.

Lemma second_commit_restores_nothing (prev : Deps) (w : World) :
  restores (deps (closure w))
           (closure (commit_world prev (closure w) w)) = false.
Proof. unfold restores. simpl. rewrite String.eqb_refl. reflexivity. Qed.

Lemma second_commit_checks_nothing (prev : Deps) (w : World) :
  checks (deps (closure w))
         (closure (commit_world prev (closure w) w)) = None.
Proof. unfold checks. simpl. rewrite same_ref_refl. reflexivity. Qed.

Lemma second_commit_trace (prev : Deps) (w : World) :
  let c1 := closure (commit_world prev (closure w) w) in
  commit_trace (deps (closure w)) c1 =
  if fetches (deps (closure w)) c1
  then [OnAuth (accessToken (c_state c1));
        GetLinearContext (accessToken (c_state c1))]
  else [].
Proof.
  intros c1. unfold commit_trace. subst c1.
  rewrite second_commit_checks_nothing, app_nil_r. reflexivity.
Qed.

Lemma second_commit_pending (prev : Deps) (w : World) :
  let c1 := closure (commit_world prev (closure w) w) in
  commit_pending (deps (closure w)) c1 =
  if fetches (deps (closure w)) c1 then [AwaitContext] else [].
Proof.
  intros c1. unfold commit_pending. subst c1.
  rewrite second_commit_checks_nothing, app_nil_r. reflexivity.
Qed.

Lemma second_commit_state (prev : Deps) (w : World) (s : State) :
  commit_state (deps (closure w))
               (closure (commit_world prev (closure w) w)) s = s.
Proof.
  unfold commit_state.
  rewrite second_commit_restores_nothing, second_commit_checks_nothing.
  destruct s. reflexivity.
Qed.

(** Three rounds are enough: with more fuel the outcome is the same. *)
Lemma flush_eq (n : nat) (prev : Deps) (w : World) :
  flush (3 + n) prev w =
  (rerender_world prev w, rerender_trace prev w, inr tt).
Proof.
  simpl plus. rewrite flush_S.
  destruct (deps_eqb prev (deps (closure w))) eqn:E.
  - unfold deps_eqb in E. apply andb_prop in E as [E E3].
    apply andb_prop in E as [E1 E2]. simpl in *.
    unfold rerender_world, rerender_trace, rerender_pending, fetches_again,
      restored_token, commit_state, commit_trace, commit_pending, restores,
      fetches, checks. simpl.
    rewrite E1, E2, E3. simpl. rewrite String.eqb_refl. simpl.
    rewrite !app_nil_r. destruct w as [pr [tok ts ch us dp ld] q ls pd nr].
    reflexivity.
  - clear E. rewrite flush_S.
    set (w1 := commit_world prev (closure w) w).
    destruct (deps_eqb (deps (closure w)) (deps (closure w1))) eqn:E1.
    + subst w1. rewrite commit_deps in E1. unfold deps_eqb in E1.
      simpl in E1. rewrite String.eqb_refl, same_ref_refl in E1.
      simpl in E1. rewrite andb_true_r in E1.
      unfold rerender_world, rerender_trace, rerender_pending, fetches_again,
        restored_token, commit_world. simpl.
      rewrite E1. simpl. rewrite !app_nil_r. reflexivity.
    + set (w2 := commit_world (deps (closure w)) (closure w1) w1).
      assert (Hd : deps (closure w1) = deps (closure w2)).
      { subst w2. rewrite (commit_deps (deps (closure w)) (closure w1) w1).
        subst w1. rewrite second_commit_restores_nothing. reflexivity. }
      rewrite Hd, flush_stable.
      subst w1. rewrite commit_deps in E1. unfold deps_eqb in E1.
      simpl in E1. rewrite String.eqb_refl, same_ref_refl in E1.
      simpl in E1. rewrite andb_true_r in E1.
      subst w2. unfold commit_world at 1.
      rewrite second_commit_state, second_commit_pending,
        second_commit_trace.
      unfold fetches, wants_context. simpl.
      unfold rerender_world, rerender_trace, rerender_pending, fetches_again,
        restored_token. simpl.
      rewrite E1. simpl. rewrite !app_nil_r, <- !app_assoc. reflexivity.
Qed.

Lemma rerender_eq (prev : Deps) (w : World) :
  rerender prev w = (rerender_world prev w, rerender_trace prev w, inr tt).
Proof. apply (flush_eq 0). Qed.

Lemma rerender_settled (w : World) :
  rerender_world (deps (closure w)) w = w
  ∧ rerender_trace (deps (closure w)) w = [].
Proof.
  destruct w as [[rk rd] [tok ts ch us dp ld] q ls pd nr].
  unfold rerender_world, rerender_trace, rerender_pending, fetches_again,
    restored_token, commit_state, commit_trace, commit_pending, restores,
    fetches, checks, deps, closure.
  simpl. rewrite !String.eqb_refl, same_ref_refl. simpl.
  rewrite ?String.eqb_refl. simpl. rewrite ?app_nil_r. split; reflexivity.
Qed.

(** ** Firing an event *)

Lemma fire_eq (w : World) (ev : Event) (h : Js unit) (w1 : World)
    (t1 : list Effect) (r : Thrown + unit) :
  handler STORAGE_KEY w ev = Some h →
  h w = (w1, t1, r) →
  r = inr tt →
  fire w ev =
  Some (rerender_world (deps (closure w)) w1,
        t1 ++ rerender_trace (deps (closure w)) w1).
Proof.
  intros Hh Hw ->. unfold fire. rewrite Hh. unfold bind. rewrite Hw.
  rewrite rerender_eq. reflexivity.
Qed.

(** A handler that leaves the dependencies alone is followed by no effect. *)
Lemma fire_quiet (w : World) (ev : Event) (h : Js unit) (w1 : World)
    (t1 : list Effect) :
  handler STORAGE_KEY w ev = Some h →
  h w = (w1, t1, inr tt) →
  deps (closure w1) = deps (closure w) →
  fire w ev = Some (w1, t1).
Proof.
  intros Hh Hw Hd. rewrite (fire_eq w ev h w1 t1 (inr tt) Hh Hw eq_refl).
  rewrite <- Hd. destruct (rerender_settled w1) as [-> ->].
  rewrite app_nil_r. reflexivity.
Qed.

Lemma handler_settle (w : World) (i : nat) (o : Settlement) (p : Pending)
    (k : Js unit) :
  pending w !! i = Some p →
  settle STORAGE_KEY p o = Some k →
  handler STORAGE_KEY w (Settle i o) =
  Some (modify (with_pending (delete i)) ;; k).
Proof. intros Hp Hk. unfold handler. rewrite Hp, Hk. reflexivity. Qed.

(** ** The token exchange *)

(** A transport error of the exchange is reported and [loading] is cleared;
    the location and the storage are left as they were. *)
Lemma exchange_rejected (w : World) (i : nat) (err : string) :
  pending w !! i = Some AwaitExchange →
  ∃ w', fire w (Settle i (Rejected err))
        = Some (w', [Alert ("Error fetching access token: " +:+ err)])
        ∧ localStorage w' = localStorage w
        ∧ search w' = search w
        ∧ loading (state w') = false.
Proof.
  intros Hp. eexists. split.
  - eapply fire_quiet.
    + eapply handler_settle; [exact Hp | reflexivity].
    + reflexivity.
    + reflexivity.
  - simpl. auto.
Qed.

(** A body without a token is reported, and the location and the stored
    context are cleared. *)
Lemma exchange_without_token (w : World) (i : nat) (body : Response.Token) :
  pending w !! i = Some AwaitExchange →
  match Response.access_token body with
  | Some token => truthy token = false
  | None => True
  end →
  ∃ w', fire w (Settle i (ExchangeResolved body))
        = Some (w', [Alert "No Linear access token returned. Please try again."])
        ∧ localStorage w' = delete STORAGE_KEY (localStorage w)
        ∧ search w' = []
        ∧ loading (state w') = false.
Proof.
  intros Hp Hb. eexists. split.
  - eapply fire_quiet.
    + eapply handler_settle; [exact Hp | reflexivity].
    + unfold bind, try_catch, exchange_then, bind. simpl.
      destruct (Response.access_token body) as [token|]; [rewrite Hb|];
        reflexivity.
    + reflexivity.
  - simpl. auto.
Qed.

(** ** The deployment *)

Lemma deploy_guarded (w : World) :
  chosenTeam (state w) = None ∨ deployed (state w) = true →
  fire w ClickDeploy = Some (w, []).
Proof.
  intros H. eapply fire_quiet; [reflexivity | | reflexivity].
  unfold deployWebhook. simpl.
  destruct (chosenTeam (state w)) as [chosen|]; [|reflexivity].
  destruct H as [H|H]; [discriminate|]. rewrite H. reflexivity.
Qed.

Lemma deploy_started (w : World) (chosen : TeamObj) :
  chosenTeam (state w) = Some chosen →
  deployed (state w) = false →
  fire w ClickDeploy =
  Some (deploying chosen w,
        [SaveLinearContext (accessToken (state w)) (team chosen);
         SetLinearWebhook (accessToken (state w)) (team_id (team chosen))]).
Proof.
  intros Hc Hd. eapply fire_quiet; [reflexivity | | reflexivity].
  unfold deployWebhook. simpl. rewrite Hc, Hd.
  unfold deploying, await, bind, emit, modify, setDeployed, with_state,
    with_pending. simpl. rewrite <- app_assoc. reflexivity.
Qed.

Lemma webhook_rejected (w : World) (i : nat) (chosen : TeamObj)
    (usr : option LinearObject) (token err : string) :
  pending w !! i = Some (AwaitWebhook chosen usr token) →
  fire w (Settle i (Rejected err)) =
  Some (with_pending (delete i) w,
        [Alert ("Error deploying webhook: " +:+ err)]).
Proof.
  intros Hp. eapply fire_quiet.
  - eapply handler_settle; [exact Hp | reflexivity].
  - reflexivity.
  - reflexivity.
Qed.

Lemma webhook_resolved (w : World) (i : nat) (chosen : TeamObj)
    (usr : option LinearObject) (token : string) :
  pending w !! i = Some (AwaitWebhook chosen usr token) →
  fire w (Settle i WebhookResolved) =
  Some (with_state (set_deployed true) (with_pending (delete i) w),
        match usr with
        | Some u =>
            [OnDeployWebhook {| userId := id u;
                                teamId := team_id (team chosen);
                                apiKey := token |}]
        | None => [Alert ("Error deploying webhook: " +:+ show (TypeError "id"))]
        end).
Proof.
  intros Hp. eapply fire_quiet.
  - eapply handler_settle; [exact Hp | reflexivity].
  - destruct usr; reflexivity.
  - reflexivity.
Qed.

(** C2: when the provisioning call fails the failure is alerted, and the
    team is marked deployed all the same: [deployWebhook] sets [deployed]
    when it starts the call, before the promise settles, so the mark is there
    whether the call later succeeds or fails. *)
Theorem C2_failed_provisioning_is_reported_and_marked_deployed
    (w : World) (chosen : TeamObj) :
  chosenTeam (state w) = Some chosen →
  deployed (state w) = false →
  ∃ w1 : World,
    let i := S (length (pending w)) in
    fire w ClickDeploy =
      Some (w1, [SaveLinearContext (accessToken (state w)) (team chosen);
                 SetLinearWebhook (accessToken (state w))
                                  (team_id (team chosen))])
    ∧ deployed (state w1) = true
    ∧ pending w1 !! i =
        Some (AwaitWebhook chosen (user (state w)) (accessToken (state w)))
    ∧ (∀ err : string, ∃ w2 : World,
         fire w1 (Settle i (Rejected err)) =
           Some (w2, [Alert ("Error deploying webhook: " +:+ err)])
         ∧ deployed (state w2) = true)
    ∧ (∃ (w2 : World) (t : list Effect),
         fire w1 (Settle i WebhookResolved) = Some (w2, t)
         ∧ deployed (state w2) = true).
Proof.
  intros Hc Hd. exists (deploying chosen w). cbv zeta.
  assert (Hp : pending (deploying chosen w) !! S (length (pending w)) =
               Some (AwaitWebhook chosen (user (state w))
                                  (accessToken (state w)))).
  { simpl. rewrite lookup_app_r by lia.
    replace (S (length (pending w)) - length (pending w)) with 1 by lia.
    reflexivity. }
  split; [apply deploy_started; assumption|].
  split; [reflexivity|]. split; [exact Hp|]. split.
  - intros err. eexists. split; [eapply webhook_rejected; exact Hp|].
    reflexivity.
  - eexists _, _. split; [eapply webhook_resolved; exact Hp|]. reflexivity.
Qed.

(** C5: [deployWebhook] does nothing without a chosen team or once
    [deployed] is set; of two consecutive invocations at most one calls
    [setLinearWebhook], and when the first one calls it the second one does
    nothing at all. *)
Theorem C5_deploy_is_guarded_and_provisions_once (w : World) :
  (chosenTeam (state w) = None ∨ deployed (state w) = true →
   fire w ClickDeploy = Some (w, []))
  ∧ ∃ (w1 : World) (t1 : list Effect) (w2 : World) (t2 : list Effect),
      fire w ClickDeploy = Some (w1, t1)
      ∧ fire w1 ClickDeploy = Some (w2, t2)
      ∧ (webhook_calls (t1 ++ t2) ≤ 1)%nat
      ∧ (∀ chosen : TeamObj,
           chosenTeam (state w) = Some chosen →
           deployed (state w) = false →
           webhook_calls t1 = 1%nat ∧ t2 = [] ∧ w2 = w1).
Proof.
  split; [apply deploy_guarded|].
  destruct (chosenTeam (state w)) as [chosen|] eqn:Hc.
  - destruct (deployed (state w)) eqn:Hd.
    + exists w, [], w, []. rewrite deploy_guarded by (right; exact Hd).
      split; [reflexivity|]. split; [reflexivity|].
      split; [unfold webhook_calls; simpl; lia|]. intros ? _ H. discriminate.
    + exists (deploying chosen w),
        [SaveLinearContext (accessToken (state w)) (team chosen);
         SetLinearWebhook (accessToken (state w)) (team_id (team chosen))],
        (deploying chosen w), [].
      split; [apply deploy_started; assumption|].
      split; [apply deploy_guarded; right; reflexivity|].
      split; [unfold webhook_calls; simpl; lia|]. intros ? _ _. repeat split.
  - exists w, [], w, []. rewrite deploy_guarded by (left; exact Hc).
    split; [reflexivity|]. split; [reflexivity|].
    split; [unfold webhook_calls; simpl; lia|]. intros ? H. discriminate.
Qed.

(** ** The context fetch *)

Lemma context_without_teams (w : World) (i : nat)
    (res : option Response.Context) (property : string) :
  pending w !! i = Some AwaitContext →
  missing_property res = Some property →
  fire w (Settle i (ContextResolved res)) =
  Some (with_pending (delete i) w,
        [Alert "No Linear user or teams found";
         Alert ("Error fetching labels: " +:+ show (TypeError property))]).
Proof.
  intros Hp Hm. eapply fire_quiet.
  - eapply handler_settle; [exact Hp | reflexivity].
  - unfold missing_property in Hm.
    destruct res as [[[[[nodes|] vw]|]]|]; inversion Hm; reflexivity.
  - reflexivity.
Qed.

Lemma context_with_teams (w : World) (i : nat) (nodes : list LinearTeam)
    (vw : option LinearObject) :
  pending w !! i = Some AwaitContext →
  fire w (Settle i (ContextResolved
            (Some {| Response.data :=
                       Some {| Response.teams :=
                                 Some {| Response.nodes := nodes |};
                               Response.viewer := vw |} |}))) =
  Some (context_stored nodes vw (with_pending (delete i) w),
        match vw with
        | Some _ => []
        | None => [Alert "No Linear user or teams found"]
        end).
Proof.
  intros Hp. eapply fire_quiet.
  - eapply handler_settle; [exact Hp | reflexivity].
  - destruct vw; reflexivity.
  - reflexivity.
Qed.

Lemma lacks_cases (res : option Response.Context) :
  lacks_teams_or_viewer res = true →
  (∃ property, missing_property res = Some property)
  ∨ (∃ nodes,
       res = Some {| Response.data :=
                       Some {| Response.teams :=
                                 Some {| Response.nodes := nodes |};
                               Response.viewer := None |} |}).
Proof.
  destruct res as [[[[[[nodes]|] [vw|]]|]]|]; simpl; intros H;
    try discriminate;
    try (left; eexists; reflexivity).
  right. eexists. reflexivity.
Qed.

(** What the alert of the context handler covers: a response that lacks the
    team list or the viewer is alerted; without the team list nothing of it
    is stored, without the viewer alone the handler goes on and stores the
    team list next to an empty user.  A response with an empty team list and
    a viewer raises no alert and is stored as it is. *)
Lemma context_without_teams_or_viewer_alerts
    (w : World) (i : nat) :
  pending w !! i = Some AwaitContext →
  (∀ res : option Response.Context,
     lacks_teams_or_viewer res = true →
     ∃ (w' : World) (t : list Effect),
       fire w (Settle i (ContextResolved res)) = Some (w', t)
       ∧ In (Alert "No Linear user or teams found") t
       ∧ (state w' = state w ∨ user (state w') = None))
  ∧ (∀ vw : LinearObject,
     ∃ w' : World,
       fire w (Settle i (ContextResolved
                 (Some {| Response.data :=
                            Some {| Response.teams :=
                                      Some {| Response.nodes := [] |};
                                    Response.viewer := Some vw |} |})))
         = Some (w', [])
       ∧ teams (state w') = []
       ∧ user (state w') = Some vw
       ∧ pending w' = delete i (pending w)).
Proof.
  intros Hp. split.
  - intros res Hl. destruct (lacks_cases res Hl) as [[property Hm]|[nodes ->]].
    + eexists _, _. split; [eapply context_without_teams; eassumption|].
      split; [left; reflexivity | left; reflexivity].
    + eexists _, _. split; [eapply context_with_teams; eassumption|].
      split; [left; reflexivity | right; reflexivity].
  - intros vw. eexists. split; [eapply context_with_teams; eassumption|].
    repeat split.
Qed.

(** ** The dedup check *)

Lemma check_exists_with_user (w : World) (i : nat) (chosen : TeamObj)
    (u : LinearObject) (token : string) :
  pending w !! i = Some (AwaitCheck chosen (Some u) token) →
  fire w (Settle i (CheckResolved (Some {| Response.exists_ := true |}))) =
  Some (with_state (set_loading false)
          (with_state (set_deployed true) (with_pending (delete i) w)),
        [OnDeployWebhook {| userId := id u; teamId := team_id (team chosen);
                            apiKey := token |}]).
Proof.
  intros Hp. eapply fire_quiet.
  - eapply handler_settle; [exact Hp | reflexivity].
  - reflexivity.
  - reflexivity.
Qed.

(** Without a user descriptor [user.id] raises after [setDeployed(true)]; the
    [catch] of the chain reports it. *)
Lemma check_exists_without_user (w : World) (i : nat) (chosen : TeamObj)
    (token : string) :
  pending w !! i = Some (AwaitCheck chosen None token) →
  fire w (Settle i (CheckResolved (Some {| Response.exists_ := true |}))) =
  Some (with_state (set_loading false)
          (with_state (set_deployed true) (with_pending (delete i) w)),
        [Alert ("Error checking for existing labels: "
                  +:+ show (TypeError "id"))]).
Proof.
  intros Hp. eapply fire_quiet.
  - eapply handler_settle; [exact Hp | reflexivity].
  - reflexivity.
  - reflexivity.
Qed.


Lemma check_rejected (w : World) (i : nat) (chosen : TeamObj)
    (usr : option LinearObject) (token err : string) :
  pending w !! i = Some (AwaitCheck chosen usr token) →
  fire w (Settle i (Rejected err)) =
  Some (with_state (set_loading false) (with_pending (delete i) w),
        [Alert ("Error checking for existing labels: " +:+ err)]).
Proof.
  intros Hp. eapply fire_quiet.
  - eapply handler_settle; [exact Hp | reflexivity].
  - reflexivity.
  - reflexivity.
Qed.

(** ** The first commit *)

Lemma effect_exchange_eq (c : Closure) (w : World) :
  accessToken (c_state c) = "" →
  effect_exchange c w =
  match return_kind (search w) (localStorage w !! "linear-verification") with
  | NoCode | ForeignFlow => (w, [], inr tt)
  | Mismatch =>
      (w, [Alert "Linear auth returned an invalid code. Please try again."],
       inr tt)
  | Verified code =>
      (with_pending (λ l, l ++ [AwaitExchange])
         (with_state (set_loading true) w),
       [ExchangeLinearToken code], inr tt)
  end.
Proof.
  intros Ht. unfold effect_exchange, return_kind. rewrite Ht. simpl.
  unfold bind, read, getItem. simpl.
  destruct (has (search w) "code"); simpl; [|reflexivity].
  destruct (optional_includes _ _); simpl; [|reflexivity].
  destruct (strict_neq _ _); reflexivity.
Qed.

Lemma truthy_false (s : string) : truthy s = false → s = "".
Proof.
  unfold truthy. intros H. apply negb_false_iff in H.
  apply String.eqb_eq in H. exact H.
Qed.

Lemma truthy_true (s : string) : truthy s = true → ("" =? s)%string = false.
Proof.
  unfold truthy. intros H. apply negb_true_iff in H.
  rewrite String.eqb_sym. exact H.
Qed.

Lemma mounted_eq (p : Props) (q : URLSearchParams) (ls : gmap string string) :
  mounted p q ls =
  (mounted_world p q ls,
   exchange_trace (return_kind q (ls !! "linear-verification"))
   ++ restore_trace p).
Proof.
  unfold mounted, mount. unfold bind at 1. unfold read at 1.
  unfold bind at 1. rewrite effect_exchange_eq by reflexivity.
  unfold mounted_world, restore_trace. simpl.
  destruct p as [rk rd]. simpl.
  destruct (truthy rk) eqn:Hk;
    [destruct rk as [|a r]; [discriminate Hk|]
    |apply truthy_false in Hk; subst rk];
  destruct (return_kind q (ls !! "linear-verification")) as [| | |code];
    (repeat (unfold bind at 1;
             rewrite ?effect_restore_eq, ?effect_context_eq, ?effect_check_eq;
             simpl; rewrite ?Hk; simpl);
     rewrite ?rerender_eq;
     unfold rerender_world, rerender_trace, rerender_pending, fetches_again,
       restored_token, commit_state, commit_trace, commit_pending, restores,
       fetches, checks, wants_context; simpl;
     rewrite ?String.eqb_refl, ?Ascii.eqb_refl; simpl;
     rewrite ?String.eqb_refl, ?Ascii.eqb_refl; simpl; reflexivity).
Qed.

Lemma restore_trace_no_exchange (p : Props) (code : option string) :
  ¬ In (ExchangeLinearToken code) (restore_trace p).
Proof.
  unfold restore_trace. destruct (truthy _); simpl; intuition discriminate.
Qed.

Lemma restore_trace_no_alert (p : Props) (msg : string) :
  ¬ In (Alert msg) (restore_trace p).
Proof.
  unfold restore_trace. destruct (truthy _); simpl; intuition discriminate.
Qed.

Lemma foreign_return_kind (q : URLSearchParams) (stored : option string) :
  optional_includes (get q "state") "linear" = false →
  exchange_trace (return_kind q stored) = []
  ∧ match return_kind q stored with Verified _ => false | _ => true end = true.
Proof.
  intros H. unfold return_kind. rewrite H. simpl.
  destruct (has q "code"); simpl; auto.
Qed.

(** C9: a return whose [state] does not contain the marker [linear] is
    passed over in silence: the first commit calls no token exchange, raises
    no alert and leaves [loading] clear; all it does is what it does for a
    restored key. *)
Theorem C9_return_without_marker_is_ignored
    (p : Props) (q : URLSearchParams) (ls : gmap string string) :
  optional_includes (get q "state") "linear" = false →
  (mounted p q ls).2 = restore_trace p
  ∧ (∀ code, ¬ In (ExchangeLinearToken code) (mounted p q ls).2)
  ∧ (∀ msg, ¬ In (Alert msg) (mounted p q ls).2)
  ∧ loading (state (mounted p q ls).1) = false.
Proof.
  intros H. rewrite mounted_eq. simpl.
  destruct (foreign_return_kind q (ls !! "linear-verification") H) as [Ht Hk].
  rewrite Ht. simpl. split; [reflexivity|].
  split; [intros; apply restore_trace_no_exchange|].
  split; [intros; apply restore_trace_no_alert|].
  destruct (return_kind q _); [reflexivity..|discriminate].
Qed.

Lemma openLinearAuth_eq (uuid : string) (w : World) :
  openLinearAuth uuid w =
  (with_storage (insert "linear-verification" ("linear-" +:+ uuid)) w,
   [LocationReplace ("linear-" +:+ uuid)], inr tt).
Proof. reflexivity. Qed.

Lemma return_kind_marked (q : URLSearchParams) (stored : option string)
    (code st : string) :
  get q "code" = Some code →
  get q "state" = Some st →
  includes st "linear" = true →
  return_kind q stored =
  if strict_neq (Some st) stored then Mismatch else Verified (Some code).
Proof.
  intros Hc Hs Hm. unfold return_kind, has, optional_includes.
  rewrite Hc, Hs, Hm. reflexivity.
Qed.

Lemma strict_neq_differs (st : string) (stored : option string) :
  stored ≠ Some st → strict_neq (Some st) stored = true.
Proof.
  intros Hne. destruct stored as [x|]; simpl; [|reflexivity].
  destruct (String.eqb_spec st x); [subst; congruence | reflexivity].
Qed.

Lemma strict_neq_same (st : string) : strict_neq (Some st) (Some st) = false.
Proof. simpl. rewrite String.eqb_refl. reflexivity. Qed.

(** C4: on a return with a code whose [state] contains the marker, a [state]
    that differs from the stored verification code raises the alert and
    nothing else happens for the return (no exchange is called, [loading]
    stays clear); a [state] equal to the stored code calls the token exchange
    with the code of the return.  The codes [openLinearAuth] stores all
    contain the marker. *)
Theorem C4_return_state_is_checked_against_the_stored_code
    (p : Props) (q : URLSearchParams) (ls : gmap string string)
    (code st : string) :
  get q "code" = Some code →
  get q "state" = Some st →
  includes st "linear" = true →
  (ls !! "linear-verification" ≠ Some st →
     (mounted p q ls).2 =
       Alert "Linear auth returned an invalid code. Please try again."
         :: restore_trace p
     ∧ (∀ c, ¬ In (ExchangeLinearToken c) (mounted p q ls).2)
     ∧ loading (state (mounted p q ls).1) = false)
  ∧ (ls !! "linear-verification" = Some st →
     (mounted p q ls).2 = ExchangeLinearToken (Some code) :: restore_trace p
     ∧ (∀ msg, ¬ In (Alert msg) (mounted p q ls).2)
     ∧ In AwaitExchange (pending (mounted p q ls).1))
  ∧ (∀ (uuid : string) (w : World),
     ∃ stored,
       localStorage (openLinearAuth uuid w).1.1 !! "linear-verification"
         = Some stored
       ∧ includes stored "linear" = true).
Proof.
  intros Hc Hs Hm. rewrite mounted_eq. unfold mounted_world. simpl.
  rewrite !(return_kind_marked q _ code st Hc Hs Hm).
  split; [|split].
  - intros Hne. rewrite (strict_neq_differs _ _ Hne). simpl.
    split; [reflexivity|]. split; [|reflexivity].
    intros c [H|H]; [discriminate|].
    exact (restore_trace_no_exchange p c H).
  - intros ->. rewrite strict_neq_same. simpl.
    split; [reflexivity|]. split; [|left; reflexivity].
    intros msg [H|H]; [discriminate|].
    exact (restore_trace_no_alert p msg H).
  - intros uuid w. exists ("linear-" +:+ uuid).
    split; [apply lookup_insert_eq | apply verification_code_has_marker].
Qed.

(** A restored key on a location without a code: the key becomes the access
    token and the context is requested, without a token exchange. *)
Lemma restore_without_code
    (p : Props) (q : URLSearchParams) (ls : gmap string string) :
  truthy (restoredApiKey p) = true →
  has q "code" = false →
  (mounted p q ls).2 =
    [OnAuth (restoredApiKey p); GetLinearContext (restoredApiKey p)]
  ∧ accessToken (state (mounted p q ls).1) = restoredApiKey p
  ∧ pending (mounted p q ls).1 = [AwaitContext].
Proof.
  intros Hk Hc. rewrite mounted_eq. simpl. unfold return_kind, restore_trace.
  rewrite Hc, Hk. simpl. auto.
Qed.

(** A restored key on a location with a verified return: the first commit
    calls the token exchange all the same; the guard of the exchange effect
    reads the state cell, which is still empty on the first commit. *)
Lemma restore_with_verified_return
    (p : Props) (q : URLSearchParams) (ls : gmap string string)
    (code : option string) :
  truthy (restoredApiKey p) = true →
  return_kind q (ls !! "linear-verification") = Verified code →
  (mounted p q ls).2 =
    [ExchangeLinearToken code; OnAuth (restoredApiKey p);
     GetLinearContext (restoredApiKey p)]
  ∧ accessToken (state (mounted p q ls).1) = restoredApiKey p.
Proof.
  intros Hk Hr. rewrite mounted_eq. simpl. unfold restore_trace.
  rewrite Hr, Hk. simpl. auto.
Qed.

(** ** The team selector *)

Lemma change_eq (w : World) (value : string) :
  let found :=
    List.find (λ t, String.eqb (team_id (team t)) value) (teams (state w)) in
  fire w (Change value) =
  Some (
    match found with
    | Some chosen =>
        if same_ref (chosenTeam (state w)) found
        then with_state (set_chosenTeam found) w
        else with_pending
               (λ l, l ++ [AwaitCheck chosen (user (state w))
                                      (accessToken (state w))])
               (with_state (set_loading true)
                  (with_state (set_chosenTeam found) w))
    | None => with_state (set_chosenTeam None) w
    end,
    match found with
    | Some chosen =>
        if same_ref (chosenTeam (state w)) found then []
        else [CheckForExistingTeam (team_id (team chosen))]
    | None => []
    end).
Proof.
  intros found. erewrite fire_eq; [|reflexivity|reflexivity|reflexivity].
  subst found.
  destruct w as [[rk rd] [tok ts ch us dp ld] q ls pd nr]. simpl.
  unfold rerender_world, rerender_trace, rerender_pending, fetches_again,
    restored_token, commit_state, commit_trace, commit_pending, restores,
    fetches, checks, wants_context. simpl.
  rewrite ?String.eqb_refl. simpl. rewrite ?String.eqb_refl. simpl.
  rewrite ?app_nil_r.
  destruct (List.find _ ts) as [chosen|]; simpl.
  - destruct (same_ref ch (Some chosen)); simpl; rewrite ?app_nil_r;
      reflexivity.
  - destruct (same_ref ch None); simpl; rewrite ?app_nil_r; reflexivity.
Qed.

(** ** What a handler leaves behind *)

(** No handler lets an exception escape, and each one leaves the promises,
    [loading] and the chosen team as tabulated above. *)
Lemma handler_summary (w : World) (ev : Event) (h : Js unit) :
  handler STORAGE_KEY w ev = Some h →
  ∃ (w1 : World) (t1 : list Effect),
    h w = (w1, t1, inr tt)
    ∧ pending w1 = handled_pending w ev
    ∧ loading (state w1) = handled_loading w ev
    ∧ chosenTeam (state w1) = handled_chosenTeam w ev.
Proof.
  destruct ev as [p|value| |i o]; simpl.
  - intros [= <-]. eexists _, _. split; [reflexivity|]. auto.
  - intros [= <-]. eexists _, _. split; [reflexivity|]. auto.
  - intros [= <-]. unfold deployWebhook. simpl.
    destruct (chosenTeam (state w)) as [chosen|] eqn:Hc.
    + destruct (deployed (state w)) eqn:Hd.
      * eexists _, _. split; [reflexivity|]. auto.
      * eexists _, _. split; [reflexivity|]. simpl.
        rewrite <- app_assoc. auto.
    + eexists _, _. split; [reflexivity|]. auto.
  - destruct (pending w !! i) as [p|] eqn:Hp; [|discriminate].
    destruct p as [| |chosen usr token| |chosen usr token], o; simpl;
      intros [= <-].
    + destruct body as [[token|]]; [destruct (truthy token) eqn:Ht|];
        (eexists _, _; split;
         [unfold bind, try_catch, exchange_then; simpl; rewrite ?Ht;
          reflexivity|]); auto.
    + eexists _, _. split; [reflexivity|]. auto.
    + destruct res as [[[[[nodes|] [vw|]]|]]|];
        (eexists _, _; split; [reflexivity|]); auto.
    + eexists _, _. split; [reflexivity|]. auto.
    + destruct res as [[[|]]|]; [destruct usr| |];
        (eexists _, _; split; [reflexivity|]); auto.
    + eexists _, _. split; [reflexivity|]. auto.
    + eexists _, _. split; [reflexivity|]. auto.
    + eexists _, _. split; [reflexivity|]. auto.
    + destruct usr; (eexists _, _; split; [reflexivity|]); auto.
    + eexists _, _. split; [reflexivity|]. auto.
Qed.

(** ** Promises in flight *)

Lemma In_delete {A} (x : A) (i : nat) (l : list A) :
  In x (delete i l) → In x l.
Proof.
  revert i. induction l as [|y l IH]; intros [|i]; simpl; auto.
  intros [H|H]; eauto.
Qed.

Lemma filter_delete_other {A} (f : A → bool) (l : list A) (i : nat) (p : A) :
  l !! i = Some p → f p = false →
  List.filter f (delete i l) = List.filter f l.
Proof.
  revert i. induction l as [|y l IH]; intros [|i]; simpl; try discriminate.
  - intros [= ->] ->. reflexivity.
  - intros Hl Hf. rewrite (IH i Hl Hf). reflexivity.
Qed.

Lemma filter_delete_length {A} (f : A → bool) (l : list A) (i : nat) (p : A) :
  l !! i = Some p → f p = true →
  S (length (List.filter f (delete i l))) = length (List.filter f l).
Proof.
  revert i. induction l as [|y l IH]; intros [|i]; simpl; try discriminate.
  - intros [= ->] ->. reflexivity.
  - intros Hl Hf. destruct (f y); simpl; rewrite (IH i Hl Hf); reflexivity.
Qed.

Lemma lookup_In {A} (l : list A) (i : nat) (x : A) : l !! i = Some x → In x l.
Proof.
  revert i. induction l as [|y l IH]; intros [|i]; simpl; try discriminate.
  - intros [= ->]. auto.
  - eauto.
Qed.

Lemma fire_summary (w : World) (ev : Event) (w' : World) (t : list Effect) :
  fire w ev = Some (w', t) →
  ∃ w1 : World,
    pending w1 = handled_pending w ev
    ∧ loading (state w1) = handled_loading w ev
    ∧ chosenTeam (state w1) = handled_chosenTeam w ev
    ∧ w' = rerender_world (deps (closure w)) w1.
Proof.
  unfold fire. destruct (handler STORAGE_KEY w ev) as [h|] eqn:Hh;
    [|discriminate].
  destruct (handler_summary w ev h Hh) as (w1 & t1 & Hw & Hp & Hl & Hc).
  unfold bind. rewrite Hw, rerender_eq. intros [= <- <-].
  exists w1. auto.
Qed.

(** The checks a render round starts close over the user of that render. *)
Lemma rerender_checks (d : Deps) (w1 : World) (pd : Pending) :
  In pd (rerender_pending d w1) → is_check pd = true →
  pd = match checks d (closure w1) with
       | Some chosen =>
           AwaitCheck chosen (user (state w1)) (accessToken (state w1))
       | None => pd
       end
  ∧ checks d (closure w1) ≠ None.
Proof.
  unfold rerender_pending, commit_pending. intros H Hc.
  repeat (apply in_app_or in H as [H|H]).
  - destruct (fetches _ _); simpl in H; [destruct H as [<-|[]]|destruct H].
    discriminate.
  - destruct (checks d (closure w1)); simpl in H; [|destruct H].
    destruct H as [<-|[]]. split; [reflexivity | discriminate].
  - destruct (fetches_again _ _); simpl in H; [destruct H as [<-|[]]|destruct H].
    discriminate.
Qed.

Lemma handled_checks (w : World) (ev : Event) (pd : Pending) :
  In pd (handled_pending w ev) → is_check pd = true → In pd (pending w).
Proof.
  destruct ev as [p|value| |i o]; simpl; auto.
  - destruct (chosenTeam (state w)); auto.
    destruct (deployed (state w)); auto.
    intros H Hc. apply in_app_or in H as [H|H]; auto.
    simpl in H. destruct H as [<-|[<-|[]]]; discriminate.
  - intros H _. eapply In_delete. exact H.
Qed.

(** A check in flight after an event was in flight before it, or was started
    by the event and closed over the user of the resulting render. *)
Lemma fire_checks (w : World) (ev : Event) (w' : World) (t : list Effect)
    (pd : Pending) :
  fire w ev = Some (w', t) →
  In pd (pending w') → is_check pd = true →
  In pd (pending w)
  ∨ ∃ chosen token, pd = AwaitCheck chosen (user (state w')) token.
Proof.
  intros Hf Hin Hc.
  destruct (fire_summary w ev w' t Hf) as (w1 & Hp & _ & _ & ->).
  simpl in *. apply in_app_or in Hin as [Hin|Hin].
  - left. rewrite Hp in Hin. eapply handled_checks; eassumption.
  - right. destruct (rerender_checks _ _ _ Hin Hc) as [Heq Hne].
    destruct (checks _ _) as [chosen|]; [|congruence]. eauto.
Qed.

(** ** Before the user is known *)

Lemma mounted_has_no_check (p : Props) (q : URLSearchParams)
    (ls : gmap string string) (pd : Pending) :
  In pd (pending (mounted p q ls).1) → is_check pd = false.
Proof.
  rewrite mounted_eq. simpl. intros H. apply in_app_or in H as [H|H].
  - destruct (return_kind _ _); simpl in H; try destruct H as [<-|[]];
      try contradiction; reflexivity.
  - destruct (truthy _); simpl in H; [destruct H as [<-|[]]|destruct H].
    reflexivity.
Qed.

(** As long as no user descriptor has been stored, every check in flight has
    closed over [undefined] for the user. *)
Lemma checks_before_user (w0 w : World) :
  (∀ pd, In pd (pending w0) → is_check pd = false) →
  reach fire unpopulated w0 w →
  ∀ pd, In pd (pending w) → is_check pd = true →
  ∃ chosen token, pd = AwaitCheck chosen None token.
Proof.
  intros H0 Hr. induction Hr as [w Hw|w w1 w2 ev t Hr IH Hf Hw2].
  - intros pd Hin Hc. rewrite (H0 pd Hin) in Hc. discriminate.
  - intros pd Hin Hc.
    destruct (fire_checks w1 ev w2 t pd Hf Hin Hc) as [Hold|(chosen & token & ->)].
    + apply IH; assumption.
    + unfold unpopulated in Hw2. rewrite Hw2. eauto.
Qed.

(** C10: the [exists] branch of the dedup check reads [user.id] unguarded.
    With a user descriptor closed over, the context is handed to
    [onDeployWebhook]; in any run in which no user descriptor has been stored
    yet, a check that resolves with [exists: true] raises on [user.id], the
    [catch] of the chain alerts the error, and the callback is not called. *)
Theorem C10_existing_team_callback_needs_the_user_descriptor
    (p : Props) (q : URLSearchParams) (ls : gmap string string) (w : World)
    (i : nat) (chosen : TeamObj) (usr : option LinearObject) (token : string) :
  reach fire unpopulated (mounted p q ls).1 w →
  pending w !! i = Some (AwaitCheck chosen usr token) →
  (∃ (w' : World) (t : list Effect),
     fire w (Settle i (CheckResolved (Some {| Response.exists_ := true |})))
       = Some (w', t)
     ∧ t = [Alert ("Error checking for existing labels: "
                     +:+ show (TypeError "id"))]
     ∧ (∀ c, ¬ In (OnDeployWebhook c) t))
  ∧ (∀ (w0 : World) (j : nat) (u : LinearObject),
       pending w0 !! j = Some (AwaitCheck chosen (Some u) token) →
       ∃ w' : World,
         fire w0 (Settle j (CheckResolved
                              (Some {| Response.exists_ := true |})))
           = Some (w', [OnDeployWebhook
                          {| userId := id u;
                             teamId := team_id (team chosen);
                             apiKey := token |}])).
Proof.
  intros Hr Hp. split.
  - assert (usr = None) as ->.
    { destruct (checks_before_user _ w (mounted_has_no_check p q ls) Hr
                  (AwaitCheck chosen usr token) (lookup_In _ _ _ Hp) eq_refl)
        as (c & k & [= _ -> _]). reflexivity. }
    eexists _, _. split; [eapply check_exists_without_user; exact Hp|].
    split; [reflexivity|]. intros c [H|[]]. discriminate.
  - intros w0 j u Hj. eexists. eapply check_exists_with_user. exact Hj.
Qed.

(** ** The selector is closed while a check is in flight *)

Lemma filter_rerender_pending (d : Deps) (w1 : World) :
  List.filter clears_loading (rerender_pending d w1) =
  match checks d (closure w1) with
  | Some chosen =>
      [AwaitCheck chosen (user (state w1)) (accessToken (state w1))]
  | None => []
  end.
Proof.
  unfold rerender_pending, commit_pending. rewrite !List.filter_app.
  destruct (fetches _ _), (checks _ _), (fetches_again _ _); reflexivity.
Qed.

Lemma fire_settle_pending (w : World) (i : nat) (o : Settlement) (w' : World)
    (t : list Effect) :
  fire w (Settle i o) = Some (w', t) → ∃ p, pending w !! i = Some p.
Proof.
  unfold fire, handler. destruct (pending w !! i) as [p|]; [eauto|discriminate].
Qed.


Lemma step_one_in_flight (w : World) (ev : Event) (w' : World)
    (t : list Effect) :
  step w ev = Some (w', t) → one_in_flight w → one_in_flight w'.
Proof.
  unfold step. destruct (enabled w ev) eqn:En; [|discriminate].
  intros Hf [Hlen Hload].
  destruct (fire_summary w ev w' t Hf) as (w1 & Hp & Hl & Hc & ->).
  unfold one_in_flight, in_flight in *. simpl.
  rewrite List.filter_app, filter_rerender_pending, Hp.
  unfold checks. simpl. rewrite Hc.
  destruct ev as [pr|value| |i o]; simpl in *.
  - rewrite same_ref_refl, app_nil_r. rewrite Hl. auto.
  - apply andb_prop in En as [_ En]. apply negb_true_iff in En.
    apply orb_false_iff in En as [_ En].
    assert (Hnil : List.filter clears_loading (pending w) = []).
    { destruct (List.filter clears_loading (pending w)) eqn:E; [reflexivity|].
      rewrite Hload in En; [discriminate | congruence]. }
    rewrite Hnil. simpl.
    destruct (same_ref _ _); simpl; [split; [lia|congruence]|].
    destruct (List.find _ _); simpl; split; (lia || congruence).
  - rewrite same_ref_refl, app_nil_r, Hl.
    destruct (chosenTeam (state w)); auto.
    destruct (deployed (state w)); auto.
    rewrite List.filter_app. simpl. rewrite app_nil_r. auto.
  - rewrite same_ref_refl, app_nil_r, Hl.
    destruct (fire_settle_pending w i o _ t Hf) as [pd Hpd]. rewrite Hpd.
    destruct (clears_loading pd) eqn:Hb.
    + pose proof (filter_delete_length clears_loading _ i pd Hpd Hb) as Hs.
      destruct (List.filter clears_loading (delete i (pending w))) eqn:E;
        simpl in *; [split; [lia|congruence]|lia].
    + rewrite (filter_delete_other clears_loading _ i pd Hpd Hb). auto.
Qed.

Lemma reach_one_in_flight (w0 w : World) :
  one_in_flight w0 → reach step (λ _, True) w0 w → one_in_flight w.
Proof.
  intros H0 Hr. induction Hr as [w _|w w1 w2 ev t Hr IH Hf _]; [exact H0|].
  eapply step_one_in_flight; eauto.
Qed.








(** Runs whose worlds all satisfy [P]. *)
Lemma run_through_reach (f : World → Event → option (World * list Effect))
    (P : World → Prop) (w0 w1 w : World) (evs : list Event) :
  reach f P w0 w1 →
  run_through f P w1 evs w →
  reach f P w0 w.
Proof.
  revert w1. induction evs as [|ev evs IH]; intros w1 Hr; simpl.
  - intros <-. exact Hr.
  - intros (w2 & t & Hf & HP & Hrest). eapply IH; [|exact Hrest].
    eapply reach_step; eauto.
Qed.


(** ** What a handler leaves behind, cell by cell *)

Lemma handler_frame (w : World) (ev : Event) (h : Js unit) :
  handler STORAGE_KEY w ev = Some h →
  ∃ (w1 : World) (t1 : list Effect),
    h w = (w1, t1, inr tt)
    ∧ props w1 = handled_props w ev
    ∧ accessToken (state w1) = handled_accessToken w ev
    ∧ localStorage w1 = handled_storage STORAGE_KEY w ev
    ∧ search w1 = handled_search w ev
    ∧ deployed (state w1) = handled_deployed w ev
    ∧ forallb handler_effect t1 = true.
Proof.
  unfold handled_accessToken, handled_storage, handled_search, exchanged,
    usable_token.
  destruct ev as [p|value| |i o]; simpl.
  - intros [= <-]. eexists _, _. split; [reflexivity|]. repeat split.
  - intros [= <-]. eexists _, _. split; [reflexivity|]. repeat split.
  - intros [= <-]. unfold deployWebhook. simpl.
    destruct (chosenTeam (state w)) as [chosen|] eqn:Hc.
    + destruct (deployed (state w)) eqn:Hd;
        (eexists _, _; split; [reflexivity|]); repeat split; auto.
    + eexists _, _. split; [reflexivity|]. repeat split.
  - destruct (pending w !! i) as [p|] eqn:Hp; [|discriminate].
    destruct p as [| |chosen usr token| |chosen usr token], o; simpl;
      intros [= <-].
    + destruct body as [[token|]]; simpl;
        [destruct (truthy token) eqn:Ht|];
        (eexists _, _; split;
         [unfold bind, try_catch, exchange_then; simpl; rewrite ?Ht;
          reflexivity|]); repeat split.
    + eexists _, _. split; [reflexivity|]. repeat split.
    + destruct res as [[[[[nodes|] [vw|]]|]]|];
        (eexists _, _; split; [reflexivity|]); repeat split.
    + eexists _, _. split; [reflexivity|]. repeat split.
    + destruct res as [[[|]]|]; [destruct usr| |];
        (eexists _, _; split; [reflexivity|]); repeat split.
    + eexists _, _. split; [reflexivity|]. repeat split.
    + eexists _, _. split; [reflexivity|]. repeat split.
    + eexists _, _. split; [reflexivity|]. repeat split.
    + destruct usr; (eexists _, _; split; [reflexivity|]); repeat split.
    + eexists _, _. split; [reflexivity|]. repeat split.
Qed.

Lemma rerender_trace_effects (d : Deps) (w1 : World) :
  forallb render_effect (rerender_trace d w1) = true.
Proof.
  unfold rerender_trace, commit_trace.
  destruct (fetches _ _), (checks _ _), (fetches_again _ _); reflexivity.
Qed.

(** An event, in full: the handler's part and the render round's part. *)
Lemma fire_frame (w : World) (ev : Event) (w' : World) (t : list Effect) :
  fire w ev = Some (w', t) →
  ∃ (w1 : World) (t1 : list Effect),
    w' = rerender_world (deps (closure w)) w1
    ∧ t = t1 ++ rerender_trace (deps (closure w)) w1
    ∧ props w1 = handled_props w ev
    ∧ accessToken (state w1) = handled_accessToken w ev
    ∧ localStorage w1 = handled_storage STORAGE_KEY w ev
    ∧ search w1 = handled_search w ev
    ∧ deployed (state w1) = handled_deployed w ev
    ∧ pending w1 = handled_pending w ev
    ∧ chosenTeam (state w1) = handled_chosenTeam w ev
    ∧ forallb handler_effect t1 = true.
Proof.
  unfold fire. destruct (handler STORAGE_KEY w ev) as [h|] eqn:Hh;
    [|discriminate].
  destruct (handler_frame w ev h Hh)
    as (w1 & t1 & Hw & Hp & Ha & Hs & Hq & Hd & Ht).
  destruct (handler_summary w ev h Hh) as (w2 & t2 & Hw2 & Hpd & _ & Hc).
  rewrite Hw in Hw2. injection Hw2 as <- <-.
  unfold bind. rewrite Hw, rerender_eq. intros [= <- <-].
  exists w1, t1. repeat split; assumption.
Qed.


(** ** Further properties of the effects and handlers *)

(** X1: the effects do not keep each other running: whatever changed, the
    renders that follow an event are over after three rounds (more rounds
    give the same world and the same calls), and a further render of the
    world they leave runs no effect. *)
Theorem X1_render_rounds_settle (n : nat) (prev : Deps) (w : World) :
  flush (3 + n) prev w = rerender prev w
  ∧ rerender (deps (closure (rerender prev w).1.1)) (rerender prev w).1.1
    = ((rerender prev w).1.1, [], inr tt).
Proof.
  split.
  - rewrite flush_eq, rerender_eq. reflexivity.
  - rewrite (rerender_eq prev w). simpl. rewrite rerender_eq.
    destruct (rerender_settled (rerender_world prev w)) as [-> ->].
    reflexivity.
Qed.

(** X2: no handler lets an exception escape: every promise chain ends in a
    [catch] that only alerts, so the [TypeError]s raised in the
    continuations end there too. *)
Theorem X2_no_handler_lets_an_exception_escape (w : World) (ev : Event) :
  match handler STORAGE_KEY w ev with
  | Some h => (h w).2 = inr tt
  | None => True
  end.
Proof.
  destruct (handler STORAGE_KEY w ev) as [h|] eqn:Hh; [|exact I].
  destruct (handler_summary w ev h Hh) as (w1 & t1 & Hw & _).
  rewrite Hw. reflexivity.
Qed.

Lemma exchange_resolved_with_token (w : World) (i : nat) (token : string) :
  pending w !! i = Some AwaitExchange →
  truthy token = true →
  fire w (Settle i (ExchangeResolved
                      {| Response.access_token := Some token |})) =
  Some (with_pending
          (λ l, l ++ (if negb (accessToken (state w) =? token)%string
                         && negb (user_id_truthy (user (state w)))
                      then [AwaitContext] else []))
          (with_state (set_loading false)
             (with_state (set_accessToken token)
                (with_pending (delete i) w))),
        if negb (accessToken (state w) =? token)%string
           && negb (user_id_truthy (user (state w)))
        then [OnAuth token; GetLinearContext token] else []).
Proof.
  intros Hp Ht. erewrite fire_eq;
    [|eapply handler_settle; [exact Hp|reflexivity]| |reflexivity].
  2:{ unfold bind, try_catch, exchange_then, bind. simpl. rewrite Ht.
      reflexivity. }
  destruct w as [[rk rd] [tok ts ch us dp ld] q ls pd nr]. simpl.
  unfold rerender_world, rerender_trace, rerender_pending, fetches_again,
    restored_token, commit_state, commit_trace, commit_pending, restores,
    fetches, checks, wants_context. simpl.
  rewrite !String.eqb_refl, same_ref_refl, Ht. simpl.
  rewrite ?String.eqb_refl. simpl. rewrite ?app_nil_r. reflexivity.
Qed.

(** X3: when the exchange resolves with a token, the token is stored and
    [loading] is cleared; [onAuth] and the context fetch follow with that
    token unless a user is already known or the token is the one already
    held.  The query of the location and the storage are left as they are:
    the code and the state stay in the address. *)
Theorem X3_exchanged_token_is_stored_and_announced
    (w : World) (i : nat) (token : string) :
  pending w !! i = Some AwaitExchange →
  truthy token = true →
  ∃ w' : World,
    fire w (Settle i (ExchangeResolved
                        {| Response.access_token := Some token |}))
      = Some (w', if negb (accessToken (state w) =? token)%string
                     && negb (user_id_truthy (user (state w)))
                  then [OnAuth token; GetLinearContext token] else [])
    ∧ accessToken (state w') = token
    ∧ loading (state w') = false
    ∧ search w' = search w
    ∧ localStorage w' = localStorage w.
Proof.
  intros Hp Ht. eexists. split;
    [apply exchange_resolved_with_token; assumption|].
  repeat split.
Qed.

Lemma forallb_In {A} (f : A → bool) (l : list A) (x : A) :
  forallb f l = true → In x l → f x = true.
Proof. intros H Hin. rewrite List.forallb_forall in H. auto. Qed.

(** X4: the token exchange is called by the first commit only: no event
    after it (props, selector, deploy button, promises that settle) calls
    [exchangeLinearToken] or navigates away. *)
Theorem X4_no_event_calls_the_exchange
    (w : World) (ev : Event) (w' : World) (t : list Effect) :
  fire w ev = Some (w', t) →
  (∀ code, ¬ In (ExchangeLinearToken code) t)
  ∧ (∀ verificationCode, ¬ In (LocationReplace verificationCode) t).
Proof.
  intros Hf.
  destruct (fire_frame w ev w' t Hf) as (w1 & t1 & _ & -> & H).
  destruct H as (_ & _ & _ & _ & _ & _ & _ & Ht).
  pose proof (rerender_trace_effects (deps (closure w)) w1) as Hr.
  split; intros x Hin; apply in_app_or in Hin as [Hin|Hin].
  - apply (forallb_In _ _ _ Ht) in Hin. discriminate.
  - apply (forallb_In _ _ _ Hr) in Hin. discriminate.
  - apply (forallb_In _ _ _ Ht) in Hin. discriminate.
  - apply (forallb_In _ _ _ Hr) in Hin. discriminate.
Qed.

Lemma strict_neq_false (a b : option string) :
  strict_neq a b = false ↔ a = b.
Proof.
  destruct a as [x|], b as [y|]; simpl; split; try discriminate; auto.
  - intros H. apply negb_false_iff in H. apply String.eqb_eq in H.
    congruence.
  - intros [= ->]. rewrite String.eqb_refl. reflexivity.
Qed.

(** X5: the first commit calls the token exchange exactly when the location
    has a code, its state contains the marker and is the stored verification
    code; it then passes the code of the location, once. *)
Theorem X5_first_commit_exchanges_exactly_a_verified_return
    (p : Props) (q : URLSearchParams) (ls : gmap string string)
    (code : option string) :
  (In (ExchangeLinearToken code) (mounted p q ls).2
   ↔ has q "code" = true
     ∧ optional_includes (get q "state") "linear" = true
     ∧ get q "state" = ls !! "linear-verification"
     ∧ code = get q "code")
  ∧ (length (List.filter is_exchange_call (mounted p q ls).2) ≤ 1)%nat.
Proof.
  rewrite mounted_eq. simpl. unfold return_kind.
  assert (Hr : List.filter is_exchange_call (restore_trace p) = []).
  { unfold restore_trace. destruct (truthy _); reflexivity. }
  destruct (has q "code"); simpl.
  2:{ split; [|rewrite Hr; simpl; lia].
      split; [intros H; destruct (restore_trace_no_exchange _ _ H)|].
      intros (H & _). discriminate. }
  destruct (optional_includes (get q "state") "linear"); simpl.
  2:{ split; [|rewrite Hr; simpl; lia].
      split; [intros H; destruct (restore_trace_no_exchange _ _ H)|].
      intros (_ & H & _). discriminate. }
  destruct (strict_neq (get q "state") (ls !! "linear-verification")) eqn:Hs;
    simpl.
  - split; [|rewrite Hr; simpl; lia].
    split.
    + intros [H|H]; [discriminate|].
      destruct (restore_trace_no_exchange _ _ H).
    + intros (_ & _ & H & _). apply strict_neq_false in H. congruence.
  - split; [|rewrite Hr; simpl; lia].
    apply strict_neq_false in Hs. split.
    + intros [[= <-]|H]; [auto|].
      destruct (restore_trace_no_exchange _ _ H).
    + intros (_ & _ & _ & ->). left. reflexivity.
Qed.

(** X6: when the dedup check is rejected the error is alerted, [loading] is
    cleared and [deployed] is left alone, so a team that was not deployed
    can still be deployed by hand: the next click provisions the webhook. *)
Theorem X6_rejected_check_leaves_the_deployment_open
    (w : World) (i : nat) (chosen : TeamObj) (usr : option LinearObject)
    (token err : string) (current : TeamObj) :
  pending w !! i = Some (AwaitCheck chosen usr token) →
  chosenTeam (state w) = Some current →
  deployed (state w) = false →
  ∃ w1 w2 : World,
    fire w (Settle i (Rejected err))
      = Some (w1, [Alert ("Error checking for existing labels: " +:+ err)])
    ∧ loading (state w1) = false
    ∧ deployed (state w1) = false
    ∧ fire w1 ClickDeploy
      = Some (w2, [SaveLinearContext (accessToken (state w)) (team current);
                   SetLinearWebhook (accessToken (state w))
                                    (team_id (team current))])
    ∧ deployed (state w2) = true.
Proof.
  intros Hp Hc Hd. eexists _, _.
  split; [eapply check_rejected; exact Hp|].
  split; [reflexivity|]. split; [exact Hd|].
  split;
    [apply (deploy_started
              (with_state (set_loading false) (with_pending (delete i) w))
              current); simpl; assumption|].
  reflexivity.
Qed.


Lemma step_deployed_for_good (w : World) (ev : Event) (w' : World)
    (t : list Effect) :
  deployed_for_good w → step w ev = Some (w', t) → deployed_for_good w'.
Proof.
  intros [Hd Hn]. unfold step. destruct (enabled w ev) eqn:En; [|discriminate].
  intros Hf.
  destruct (fire_frame w ev w' t Hf)
    as (w1 & t1 & -> & _ & _ & _ & _ & _ & Hdep & Hpd & Hc & _).
  split.
  - simpl. rewrite Hdep. destruct ev as [p|value| |i o]; simpl; auto.
    + destruct (chosenTeam (state w)); auto.
    + destruct (pending w !! i) as [pd|] eqn:Hl; [|exact Hd].
      destruct pd, o; try exact Hd; try reflexivity.
      apply lookup_In in Hl. apply Hn in Hl. discriminate.
  - intros pd Hin. destruct (is_check pd) eqn:E; [exfalso|reflexivity].
    simpl in Hin. apply in_app_or in Hin as [Hin|Hin].
    + rewrite Hpd in Hin. apply (handled_checks w ev pd Hin) in E as Hold.
      apply Hn in Hold. congruence.
    + destruct (rerender_checks _ _ _ Hin E) as [_ Hne]. apply Hne.
      unfold checks. simpl. rewrite Hc.
      destruct ev as [p|value| |i o]; simpl;
        try (rewrite same_ref_refl; reflexivity).
      simpl in En. rewrite Hd in En. simpl in En.
      rewrite andb_false_r in En. discriminate.
Qed.

(** X7: once [deployed] is set and no dedup check is in flight, it stays
    set in every world the markup can lead to: the selector stays disabled,
    so no other team is chosen and no check is started, and a click on the
    deploy button does nothing. *)
Theorem X7_deployed_is_final_through_the_markup (w0 w : World) :
  deployed_for_good w0 →
  reach step (λ _, True) w0 w →
  deployed_for_good w
  ∧ (∀ value, step w (Change value) = None)
  ∧ (∀ w' t, step w ClickDeploy = Some (w', t) → w' = w ∧ t = []).
Proof.
  intros H0 Hr.
  assert (Hg : deployed_for_good w).
  { induction Hr as [w _|w w1 w2 ev t Hr IH Hf _]; [exact H0|].
    exact (step_deployed_for_good w1 ev w2 t (IH H0) Hf). }
  split; [exact Hg|]. destruct Hg as [Hd _]. split.
  - intros value. unfold step, enabled. rewrite Hd. simpl.
    rewrite andb_false_r. reflexivity.
  - intros w' t. unfold step. destruct (enabled w ClickDeploy); [|discriminate].
    rewrite deploy_guarded by (right; exact Hd). intros [= <- <-]. auto.
Qed.

Lemma mounted_loading_tracks_flight (p : Props) (q : URLSearchParams)
    (ls : gmap string string) :
  loading_tracks_flight (mounted p q ls).1.
Proof.
  rewrite mounted_eq. unfold loading_tracks_flight, in_flight. simpl.
  rewrite List.filter_app.
  destruct (return_kind _ _), (truthy _); simpl;
    (split; [lia|split; congruence]).
Qed.

Lemma step_loading_tracks_flight (w : World) (ev : Event) (w' : World)
    (t : list Effect) :
  step w ev = Some (w', t) →
  loading_tracks_flight w → loading_tracks_flight w'.
Proof.
  unfold step. destruct (enabled w ev) eqn:En; [|discriminate].
  intros Hf (Hlen & Hload & Hidle).
  destruct (fire_summary w ev w' t Hf) as (w1 & Hp & Hl & Hc & ->).
  unfold loading_tracks_flight, in_flight in *. simpl.
  rewrite List.filter_app, filter_rerender_pending, Hp.
  unfold checks. simpl. rewrite Hc.
  destruct ev as [pr|value| |i o]; simpl in *.
  - rewrite same_ref_refl, app_nil_r. rewrite Hl. auto.
  - apply andb_prop in En as [_ En]. apply negb_true_iff in En.
    apply orb_false_iff in En as [_ En].
    assert (Hnil : List.filter clears_loading (pending w) = []).
    { destruct (List.filter clears_loading (pending w)) eqn:E; [reflexivity|].
      rewrite Hload in En; [discriminate | congruence]. }
    rewrite Hnil. simpl.
    destruct (same_ref _ _); simpl;
      [split; [lia|split; [congruence|intros _; congruence]]|].
    destruct (List.find _ _); simpl;
      (split; [lia|split; [congruence|intros; congruence]]).
  - rewrite same_ref_refl, app_nil_r, Hl.
    destruct (chosenTeam (state w)); auto.
    destruct (deployed (state w)); auto.
    rewrite List.filter_app. simpl. rewrite app_nil_r. auto.
  - rewrite same_ref_refl, app_nil_r, Hl.
    destruct (fire_settle_pending w i o _ t Hf) as [pd Hpd]. rewrite Hpd.
    destruct (clears_loading pd) eqn:Hb.
    + pose proof (filter_delete_length clears_loading _ i pd Hpd Hb) as Hs.
      destruct (List.filter clears_loading (delete i (pending w))) eqn:E;
        simpl in *; [split; [lia|split; congruence]|lia].
    + rewrite (filter_delete_other clears_loading _ i pd Hpd Hb). auto.
Qed.

Lemma reach_loading_tracks_flight (w0 w : World) :
  loading_tracks_flight w0 →
  reach step (λ _, True) w0 w →
  loading_tracks_flight w.
Proof.
  intros H0 Hr. induction Hr as [w _|w w1 w2 ev t Hr IH Hf _]; [exact H0|].
  exact (step_loading_tracks_flight w1 ev w2 t Hf (IH H0)).
Qed.

(** X8: in every world the markup can lead to from the first commit,
    [loading] is set exactly while the token exchange or a dedup check is in
    flight, and never more than one of them is: the loading state neither
    sticks after the answer nor is missing before it. *)
Theorem X8_loading_is_set_exactly_while_a_request_is_in_flight
    (p : Props) (q : URLSearchParams) (ls : gmap string string) (w : World) :
  reach step (λ _, True) (mounted p q ls).1 w →
  (length (in_flight w) ≤ 1)%nat
  ∧ (loading (state w) = true ↔ in_flight w ≠ []).
Proof.
  intros Hr.
  pose proof (reach_loading_tracks_flight _ w
                (mounted_loading_tracks_flight p q ls) Hr) as Hg.
  destruct Hg as (Hlen & Hload & Hidle). split; [exact Hlen|].
  split; [|exact Hload]. intros Ht Hnil. rewrite (Hidle Hnil) in Ht.
  discriminate.
Qed.

Lemma save_rejected (w : World) (i : nat) (err : string) :
  pending w !! i = Some AwaitSave →
  fire w (Settle i (Rejected err)) =
  Some (with_pending (delete i) w,
        [Alert ("Error saving labels to DB: " +:+ err)]).
Proof.
  intros Hp. eapply fire_quiet.
  - eapply handler_settle; [exact Hp | reflexivity].
  - reflexivity.
  - reflexivity.
Qed.

(** X9: saving the context and provisioning the webhook are independent:
    when the save is rejected after a click on the deploy button, the error
    is alerted and the provisioning stays in flight; when that resolves,
    [onDeployWebhook] receives the user, the team and the token of the
    click, [deployed] is set and nothing of the deployment is left in
    flight. *)
Theorem X9_failed_save_does_not_stop_the_deployment
    (w : World) (chosen : TeamObj) (u : LinearObject) (err : string) :
  chosenTeam (state w) = Some chosen →
  deployed (state w) = false →
  user (state w) = Some u →
  ∃ w' : World,
    run fire w [ClickDeploy;
                Settle (length (pending w)) (Rejected err);
                Settle (length (pending w)) WebhookResolved]
      = Some (w',
              [SaveLinearContext (accessToken (state w)) (team chosen);
               SetLinearWebhook (accessToken (state w))
                                (team_id (team chosen));
               Alert ("Error saving labels to DB: " +:+ err);
               OnDeployWebhook
                 {| userId := id u; teamId := team_id (team chosen);
                    apiKey := accessToken (state w) |}])
    ∧ deployed (state w') = true
    ∧ pending w' = pending w.
Proof.
  intros Hc Hd Hu. simpl. rewrite (deploy_started w chosen Hc Hd).
  assert (H1 : pending (deploying chosen w) !! length (pending w)
               = Some AwaitSave).
  { simpl. apply list_lookup_middle. reflexivity. }
  rewrite (save_rejected _ _ err H1).
  assert (H2 : pending (with_pending (delete (length (pending w)))
                          (deploying chosen w)) !! length (pending w)
               = Some (AwaitWebhook chosen (Some u) (accessToken (state w)))).
  { simpl. rewrite delete_middle, Hu. apply list_lookup_middle. reflexivity. }
  rewrite (webhook_resolved _ _ _ _ _ H2). simpl.
  eexists. split; [reflexivity|]. split; [reflexivity|]. simpl.
  rewrite delete_middle. rewrite delete_middle, app_nil_r. reflexivity.
Qed.



Lemma set_props_eq (w : World) (p : Props) :
  fire w (SetProps p) =
  Some (rerender_world (deps (closure w)) (with_props p w),
        rerender_trace (deps (closure w)) (with_props p w)).
Proof.
  rewrite (fire_eq w (SetProps p) (modify (with_props p)) (with_props p w) []
             (inr tt) eq_refl eq_refl eq_refl).
  reflexivity.
Qed.

(** X11: new props reach the state only through a restored key that is not
    empty and differs from the one of the previous render.  A key that is
    cleared or unchanged leaves the token and all the rest as they are, so
    withdrawing the restored key does not sign the user out.  A new key
    replaces the access token, whatever it was; [onAuth] and the context
    fetch follow with it unless a user is known already or the token held
    was that key. *)
Theorem X11_restored_key_replaces_the_token_and_is_never_withdrawn
    (w : World) (p : Props) :
  (truthy (restoredApiKey p) = false
   ∨ restoredApiKey p = restoredApiKey (props w) →
   fire w (SetProps p) = Some (with_props p w, []))
  ∧ (truthy (restoredApiKey p) = true →
     restoredApiKey p ≠ restoredApiKey (props w) →
     ∃ w' : World,
       fire w (SetProps p)
         = Some (w',
                 if negb (accessToken (state w) =? restoredApiKey p)%string
                    && negb (user_id_truthy (user (state w)))
                 then [OnAuth (restoredApiKey p);
                       GetLinearContext (restoredApiKey p)]
                 else [])
       ∧ accessToken (state w') = restoredApiKey p
       ∧ set_accessToken (accessToken (state w)) (state w') = state w).
Proof.
  rewrite set_props_eq.
  destruct w as [[rk0 rd0] [tok ts ch us dp ld] q ls pd nr].
  destruct p as [rk rd].
  unfold rerender_world, rerender_trace, rerender_pending, fetches_again,
    restored_token, commit_state, commit_trace, commit_pending, restores,
    fetches, checks, wants_context. simpl.
  rewrite !String.eqb_refl, same_ref_refl. simpl. split.
  - intros H.
    assert (Hr : negb (rk0 =? rk)%string && truthy rk = false).
    { destruct H as [-> | ->]; [apply andb_false_r|].
      rewrite String.eqb_refl. reflexivity. }
    rewrite Hr. simpl. rewrite String.eqb_refl. simpl.
    rewrite app_nil_r. reflexivity.
  - intros Ht Hne.
    assert (Hr : negb (rk0 =? rk)%string && truthy rk = true).
    { rewrite Ht, andb_true_r. apply negb_true_iff.
      apply String.eqb_neq. congruence. }
    rewrite Hr, Ht. simpl. eexists. split.
    { apply f_equal. apply f_equal2; [reflexivity|].
      destruct (tok =? rk)%string; simpl; [reflexivity|].
      destruct (user_id_truthy us); reflexivity. }
    split; reflexivity.
Qed.

(** X12: an access token, once held, is never given up: after any event a
    token is still held, so the connect button stays disabled. *)
Theorem X12_a_token_once_held_is_never_given_up
    (w : World) (ev : Event) (w' : World) (t : list Effect) :
  truthy (accessToken (state w)) = true →
  fire w ev = Some (w', t) →
  truthy (accessToken (state w')) = true ∧ connect_disabled w' = true.
Proof.
  intros Ht Hf.
  destruct (fire_frame w ev w' t Hf)
    as (w1 & t1 & -> & _ & _ & Ha & _).
  assert (H : truthy (accessToken
                        (state (rerender_world (deps (closure w)) w1)))
              = true).
  { simpl. unfold restores. simpl.
    destruct (negb _ && truthy (restoredApiKey (props w1))) eqn:Hr.
    - apply andb_prop in Hr as [_ Hr]. exact Hr.
    - rewrite Ha. unfold handled_accessToken, usable_token.
      destruct (exchanged w ev) as [body|]; [|exact Ht].
      destruct (Response.access_token body) as [token|]; [|exact Ht].
      destruct (truthy token) eqn:Hk; [exact Hk | exact Ht]. }
  split; [exact H|]. unfold connect_disabled. rewrite H. reflexivity.
Qed.

(** X13: a change of the selector to a value that is the id of no team
    clears the chosen team and starts no check, and the deploy button is
    gone; a change that finds the object that is chosen already starts no
    check either and leaves the promises and [loading] as they are. *)
Theorem X13_change_without_a_new_team_starts_no_check
    (w : World) (value : string) :
  (List.find (λ t, String.eqb (team_id (team t)) value) (teams (state w))
     = None →
   fire w (Change value) = Some (with_state (set_chosenTeam None) w, [])
   ∧ enabled (with_state (set_chosenTeam None) w) ClickDeploy = false)
  ∧ (∀ found : TeamObj,
       List.find (λ t, String.eqb (team_id (team t)) value)
                 (teams (state w)) = Some found →
       same_ref (chosenTeam (state w)) (Some found) = true →
       fire w (Change value)
         = Some (with_state (set_chosenTeam (Some found)) w, [])).
Proof.
  split.
  - intros Hn. rewrite change_eq, Hn. split; [reflexivity|].
    simpl. apply andb_false_r.
  - intros found Hf Hr. rewrite change_eq, Hf, Hr. reflexivity.
Qed.

Lemma verification_code_injective (a b : string) :
  "linear-" +:+ a = "linear-" +:+ b → a = b.
Proof. simpl. intros [= H]. exact H. Qed.

(** X14: what [openLinearAuth] stores is what the exchange effect accepts:
    a return that echoes the code of the latest authorization and carries a
    code is exchanged.  Starting another authorization replaces the stored
    code, so a return of the earlier attempt is refused with the alert and
    not exchanged. *)
Theorem X14_return_of_the_latest_authorization_is_exchanged
    (uuid other code : string) (p : Props) (q : URLSearchParams)
    (w : World) :
  get q "code" = Some code →
  get q "state" = Some ("linear-" +:+ uuid) →
  (mounted p q (localStorage (openLinearAuth uuid w).1.1)).2
    = ExchangeLinearToken (Some code) :: restore_trace p
  ∧ (other ≠ uuid →
     (mounted p q
        (localStorage ((openLinearAuth uuid ;; openLinearAuth other) w).1.1)).2
       = Alert "Linear auth returned an invalid code. Please try again."
           :: restore_trace p).
Proof.
  intros Hc Hs.
  remember (localStorage (openLinearAuth uuid w).1.1) as ls1 eqn:E1.
  remember (localStorage
              ((openLinearAuth uuid ;; openLinearAuth other) w).1.1)
    as ls2 eqn:E2.
  assert (H1 : ls1 !! "linear-verification" = Some ("linear-" +:+ uuid)).
  { subst ls1. apply lookup_insert_eq. }
  assert (H2 : ls2 !! "linear-verification" = Some ("linear-" +:+ other)).
  { subst ls2. apply lookup_insert_eq. }
  clear E1 E2. rewrite !mounted_eq. cbn [fst snd].
  rewrite !(return_kind_marked q _ code ("linear-" +:+ uuid) Hc Hs
              (verification_code_has_marker uuid)).
  rewrite H1, H2, strict_neq_same. split; [reflexivity|].
  intros Hne. rewrite strict_neq_differs; [reflexivity|].
  intros Heq. apply Hne. apply verification_code_injective.
  congruence.
Qed.

(** Where an occurrence of [x] lies in [l1 ++ l2] when [l1] has none. *)
Lemma occurrence_after {A} (x : A) (l1 l2 pre post : list A) :
  ¬ In x l1 →
  pre ++ x :: post = l1 ++ l2 →
  ∃ mid, pre = l1 ++ mid ∧ l2 = mid ++ x :: post.
Proof.
  revert pre. induction l1 as [|y l1 IH]; intros pre Hn H.
  - exists pre. auto.
  - destruct pre as [|z pre]; simpl in H; injection H as -> H.
    + exfalso. apply Hn. left. reflexivity.
    + destruct (IH pre (λ Hi, Hn (or_intror Hi)) H) as (mid & -> & ->).
      exists mid. auto.
Qed.

(** X15: whatever the event, every request of the context in its trace
    comes immediately after the call of [onAuth] with the same token; that
    token is not empty, no user is known after the event, and the request is
    left in flight. *)
Theorem X15_context_is_requested_right_after_onAuth
    (w : World) (ev : Event) (w' : World) (t pre post : list Effect)
    (token : string) :
  fire w ev = Some (w', t) →
  t = pre ++ GetLinearContext token :: post →
  (∃ before, pre = before ++ [OnAuth token])
  ∧ user_id_truthy (user (state w')) = false
  ∧ truthy token = true
  ∧ In AwaitContext (pending w').
Proof.
  intros Hf Hocc.
  destruct (fire_frame w ev w' t Hf) as (w1 & t1 & -> & -> & H).
  destruct H as (_ & _ & _ & _ & _ & _ & _ & Ht).
  symmetry in Hocc. apply occurrence_after in Hocc as (mid & -> & Hocc).
  2:{ intros Hin. apply (forallb_In _ _ _ Ht) in Hin. discriminate. }
  simpl. unfold rerender_pending, commit_pending.
  unfold rerender_trace, commit_trace in Hocc.
  assert (Hfirst :
    fetches (deps (closure w)) (closure w1) = true →
    user_id_truthy (user (state w1)) = false
    ∧ truthy (accessToken (state w1)) = true).
  { unfold fetches, wants_context. simpl. intros Hfe.
    apply andb_prop in Hfe as [_ Hfe]. apply andb_prop in Hfe as [Hk Hu].
    apply negb_true_iff in Hu. auto. }
  assert (Hsecond :
    fetches_again (deps (closure w)) w1 = true →
    user_id_truthy (user (state w1)) = false
    ∧ truthy (restored_token (deps (closure w)) w1) = true).
  { unfold fetches_again. intros Hfa. apply andb_prop in Hfa as [Hfa Hu].
    apply andb_prop in Hfa as [_ Hk]. apply negb_true_iff in Hu. auto. }
  destruct (fetches _ _) eqn:Hfe, (checks _ _) as [chosen|],
    (fetches_again _ _) eqn:Hfa; simpl in Hocc;
    repeat (destruct mid as [|? mid]; simpl in Hocc;
            try discriminate Hocc);
    injection Hocc as <-; intros; subst;
    try (destruct (Hfirst eq_refl) as [Hu Hk]);
    try (destruct (Hsecond eq_refl) as [Hu' Hk']);
    (split; [|split; [assumption|split; [assumption|]]]).
  all: try (exists t1; reflexivity).
  all: try (rewrite !in_app_iff; simpl; auto 10).
  all: match goal with
       | |- ∃ _, ?l ++ [?a; ?b; ?c; ?d] = _ => exists (l ++ [a; b; c])
       | |- ∃ _, ?l ++ [?a; ?b; ?c] = _ => exists (l ++ [a; b])
       | |- ∃ _, ?l ++ [?a; ?b] = _ => exists (l ++ [a])
       end; rewrite <- app_assoc; reflexivity.
Qed.


Lemma allocate_cons (n : nat) (x : LinearTeam) (l : list LinearTeam) :
  allocate n (x :: l) = {| ref := n; team := x |} :: allocate (S n) l.
Proof.
  unfold allocate. simpl. rewrite Nat.add_0_r. f_equal.
  apply imap_ext. intros i y _. simpl. rewrite Nat.add_succ_r. reflexivity.
Qed.

(** [find] on the stored objects takes the first descriptor of the id: no
    descriptor before it carries the id, and its object is the one allocated
    at that place. *)
Lemma find_allocate (n : nat) (l : list LinearTeam) (node : LinearTeam) :
  In node l →
  ∃ (chosen : TeamObj) (before after : list LinearTeam),
    List.find (λ t, String.eqb (team_id (team t)) (team_id node))
              (allocate n l) = Some chosen
    ∧ team_id (team chosen) = team_id node
    ∧ l = before ++ team chosen :: after
    ∧ (∀ x, In x before → team_id x ≠ team_id node)
    ∧ ref chosen = (n + length before)%nat.
Proof.
  revert n. induction l as [|x l IH]; intros n Hin; [destruct Hin|].
  rewrite allocate_cons. simpl.
  destruct (String.eqb_spec (team_id x) (team_id node)) as [Heq|Hne].
  - exists {| ref := n; team := x |}, [], l. simpl.
    split; [reflexivity|]. split; [exact Heq|]. split; [reflexivity|].
    split; [intros y []|lia].
  - destruct Hin as [->|Hin]; [congruence|].
    destruct (IH (S n) Hin) as (chosen & before & after & Hf & Hid & -> & Hb
                                & Hr).
    exists chosen, (x :: before), after. simpl.
    split; [exact Hf|]. split; [exact Hid|]. split; [reflexivity|]. split.
    + intros y [<-|Hy]; auto.
    + rewrite Hr. lia.
Qed.

(** X16: from the context to the check: when the context arrives with a
    viewer and teams and the user then selects the id of one of them, the
    dedup check is asked about exactly that id, for the first descriptor of
    the list that carries it (no descriptor before it has the id, and the
    chosen object is the one stored at that place), and its continuation
    closes over the viewer and the token of that render; [loading] is
    set. *)
Theorem X16_selected_id_is_checked_for_its_first_team
    (w : World) (i : nat) (nodes : list LinearTeam) (vw : LinearObject)
    (node : LinearTeam) :
  pending w !! i = Some AwaitContext →
  chosenTeam (state w) = None →
  In node nodes →
  ∃ (w1 w2 : World) (chosen : TeamObj) (before after : list LinearTeam),
    fire w (Settle i (ContextResolved
              (Some {| Response.data :=
                         Some {| Response.teams :=
                                   Some {| Response.nodes := nodes |};
                                 Response.viewer := Some vw |} |})))
      = Some (w1, [])
    ∧ map team (teams (state w1)) = nodes
    ∧ fire w1 (Change (team_id node))
      = Some (w2, [CheckForExistingTeam (team_id node)])
    ∧ chosenTeam (state w2) = Some chosen
    ∧ team_id (team chosen) = team_id node
    ∧ nodes = before ++ team chosen :: after
    ∧ (∀ x, In x before → team_id x ≠ team_id node)
    ∧ teams (state w1) !! length before = Some chosen
    ∧ pending w2
      = delete i (pending w)
        ++ [AwaitCheck chosen (Some vw) (accessToken (state w))]
    ∧ loading (state w2) = true.
Proof.
  intros Hp Hc Hin.
  destruct (find_allocate (next_ref w) nodes node Hin)
    as (chosen & before & after & Hf & Hid & Hl & Hb & Hr).
  eexists _, _, chosen, before, after.
  split; [apply context_with_teams; exact Hp|].
  split.
  { simpl. unfold allocate. clear. generalize (next_ref w).
    induction nodes as [|x l IH]; intros n; [reflexivity|].
    fold (allocate n (x :: l)). rewrite allocate_cons. simpl.
    f_equal. apply IH. }
  rewrite change_eq. simpl. rewrite Hf, Hc. simpl. rewrite Hid.
  split; [reflexivity|]. split; [reflexivity|]. split; [reflexivity|].
  split; [exact Hl|]. split; [exact Hb|]. split; [|split; reflexivity].
  unfold allocate. rewrite list_lookup_imap, Hl.
  rewrite list_lookup_middle by reflexivity. simpl.
  destruct chosen as [r tm]. simpl in *. subst r. reflexivity.
Qed.

(** ** Deploying before the user is known *)

Lemma reach_holds (f : World → Event → option (World * list Effect))
    (P : World → Prop) (w0 w : World) :
  reach f P w0 w → P w.
Proof. intros Hr. destruct Hr; assumption. Qed.

Lemma mounted_has_no_webhook (p : Props) (q : URLSearchParams)
    (ls : gmap string string) (pd : Pending) :
  In pd (pending (mounted p q ls).1) → is_webhook pd = false.
Proof.
  rewrite mounted_eq. simpl. intros H. apply in_app_or in H as [H|H].
  - destruct (return_kind _ _); simpl in H; try destruct H as [<-|[]];
      try contradiction; reflexivity.
  - destruct (truthy _); simpl in H; [destruct H as [<-|[]]|destruct H].
    reflexivity.
Qed.

(** A provisioning in flight after an event was in flight before it, or was
    started by the event and closed over the user of the render before. *)
Lemma fire_webhooks (w : World) (ev : Event) (w' : World) (t : list Effect)
    (pd : Pending) :
  fire w ev = Some (w', t) →
  In pd (pending w') → is_webhook pd = true →
  In pd (pending w)
  ∨ ∃ chosen token, pd = AwaitWebhook chosen (user (state w)) token.
Proof.
  intros Hf Hin Hw.
  destruct (fire_summary w ev w' t Hf) as (w1 & Hp & _ & _ & ->).
  simpl in Hin. apply in_app_or in Hin as [Hin|Hin].
  - rewrite Hp in Hin. destruct ev as [p|value| |i o]; simpl in Hin; auto.
    + destruct (chosenTeam (state w)); auto.
      destruct (deployed (state w)); auto.
      apply in_app_or in Hin as [Hin|Hin]; auto.
      destruct Hin as [<-|[<-|[]]]; [discriminate|]. right. eauto.
    + left. eapply In_delete. exact Hin.
  - exfalso. unfold rerender_pending, commit_pending in Hin.
    repeat (apply in_app_or in Hin as [Hin|Hin]).
    + destruct (fetches _ _); simpl in Hin;
        [destruct Hin as [<-|[]]|destruct Hin]. discriminate.
    + destruct (checks _ _); simpl in Hin;
        [destruct Hin as [<-|[]]|destruct Hin]. discriminate.
    + destruct (fetches_again _ _); simpl in Hin;
        [destruct Hin as [<-|[]]|destruct Hin]. discriminate.
Qed.

Lemma webhooks_before_user (w0 w : World) :
  (∀ pd, In pd (pending w0) → is_webhook pd = false) →
  reach fire unpopulated w0 w →
  ∀ pd, In pd (pending w) → is_webhook pd = true →
  ∃ chosen token, pd = AwaitWebhook chosen None token.
Proof.
  intros H0 Hr. induction Hr as [w Hw|w w1 w2 ev t Hr IH Hf Hw2].
  - intros pd Hin Hc. rewrite (H0 pd Hin) in Hc. discriminate.
  - intros pd Hin Hc.
    destruct (fire_webhooks w1 ev w2 t pd Hf Hin Hc)
      as [Hold|(chosen & token & ->)].
    + apply IH; assumption.
    + pose proof (reach_holds _ _ _ _ Hr) as Hu. unfold unpopulated in Hu.
      rewrite Hu. eauto.
Qed.

(** X17: the deployment reads [user.id] unguarded as well.  In any run in
    which no user descriptor has been stored, a provisioning that succeeds
    sets [deployed], then raises on [user.id]: what the user gets is the
    alert of a deployment error, and [onDeployWebhook] is not called. *)
Theorem X17_provisioning_without_user_is_reported_as_an_error
    (p : Props) (q : URLSearchParams) (ls : gmap string string) (w : World)
    (i : nat) (chosen : TeamObj) (usr : option LinearObject) (token : string) :
  reach fire unpopulated (mounted p q ls).1 w →
  pending w !! i = Some (AwaitWebhook chosen usr token) →
  ∃ w' : World,
    fire w (Settle i WebhookResolved)
      = Some (w', [Alert ("Error deploying webhook: "
                            +:+ show (TypeError "id"))])
    ∧ deployed (state w') = true.
Proof.
  intros Hr Hp.
  assert (usr = None) as ->.
  { destruct (webhooks_before_user _ w (mounted_has_no_webhook p q ls) Hr
                (AwaitWebhook chosen usr token) (lookup_In _ _ _ Hp) eq_refl)
      as (c & k & [= _ -> _]). reflexivity. }
  eexists. split; [exact (webhook_resolved w i chosen None token Hp)|].
  reflexivity.
Qed.

End Properties.

(** * The scenarios, evaluated *)

(** The handlers alone do not keep an answer from a team selected earlier
    away: run on [checking_world] although the selector is rendered disabled
    there, the change handler selects [T2] and starts its check, and the
    answer for [T1] that arrives afterwards sets [deployed] and is handed to
    [onDeployWebhook] with the id of [T1].  What keeps the selection and the
    check together is the [disabled] attribute of the selector. *)
Lemma late_result_is_applied_when_the_selector_is_bypassed :
  chosenTeam (state (world_after (fire example_key)
                       (mounted restored_props [] ∅).1 reselection))
    = Some object_two
  ∧ deployed (state (world_after (fire example_key)
                       (mounted restored_props [] ∅).1 reselection))
    = true
  ∧ trace_after (fire example_key) (mounted restored_props [] ∅).1
      reselection
    = [CheckForExistingTeam "T1"; CheckForExistingTeam "T2";
       OnDeployWebhook
         {| userId := "U1"; teamId := "T1"; apiKey := "lin_api_1" |}].
Proof. vm_compute. repeat split. Qed.

(** C3 on a transport error: the rejection of the exchange is alerted, but
    the stored key and the query of the location are still there afterwards;
    the branch for a body without a token, next to it, clears both. *)
Theorem C3_transport_error_keeps_the_stored_key_and_the_query :
  pending exchanging_world !! 0 = Some AwaitExchange
  ∧ match fire example_key exchanging_world
            (Settle 0 (Rejected "TypeError: Failed to fetch")) with
    | Some (w', t) =>
        t = [Alert "Error fetching access token: TypeError: Failed to fetch"]
        ∧ localStorage w' !! example_key = Some "saved"
        ∧ search w' = return_search
    | None => False
    end
  ∧ match fire example_key exchanging_world
            (Settle 0 (ExchangeResolved
                         {| Response.access_token := None |})) with
    | Some (w', t) =>
        t = [Alert "No Linear access token returned. Please try again."]
        ∧ localStorage w' !! example_key = None
        ∧ search w' = []
    | None => False
    end.
Proof. vm_compute. repeat split. Qed.

(** C6 on a response with teams but without a viewer: the alert is raised,
    but the handler does not return after it.  The team list of the response
    is stored next to an empty user, the selector is rendered and enabled,
    and the run goes on through the markup: [T1] is selected and checked, the
    deploy button is clicked, and [setLinearWebhook] is called for [T1]. *)
Theorem C6_context_without_viewer_is_stored_and_the_flow_goes_on :
  lacks_teams_or_viewer context_without_viewer = true
  ∧ pending (mounted restored_props [] ∅).1 !! 0 = Some AwaitContext
  ∧ match step example_key (mounted restored_props [] ∅).1
            (Settle 0 (ContextResolved context_without_viewer)) with
    | Some (w', t) =>
        t = [Alert "No Linear user or teams found"]
        ∧ map team (teams (state w')) = [team_one]
        ∧ user (state w') = None
        ∧ enabled w' (Change "T1") = true
    | None => False
    end
  ∧ match run (step example_key) (mounted restored_props [] ∅).1
            proceeding with
    | Some (w', t) =>
        t = [Alert "No Linear user or teams found";
             CheckForExistingTeam "T1";
             SaveLinearContext "lin_api_1" team_one;
             SetLinearWebhook "lin_api_1" "T1"]
        ∧ chosenTeam (state w') = Some object_one
        ∧ deployed (state w') = true
    | None => False
    end.
Proof. vm_compute. repeat split. Qed.

(** C7 with a verified return in the location: the restored key becomes the
    access token and the context is requested with it, but the first commit
    has called the token exchange before that. *)
Theorem C7_restored_key_does_not_keep_the_exchange_from_running :
  (mounted restored_props return_search return_storage).2
    = [ExchangeLinearToken (Some "abc"); OnAuth "lin_api_1";
       GetLinearContext "lin_api_1"]
  ∧ accessToken
      (state (mounted restored_props return_search return_storage).1)
    = "lin_api_1".
Proof. vm_compute. repeat split. Qed.

(** C8 after a context without a viewer: the team is offered and selected,
    its check answers [exists: true], [deployed] is set, and then reading
    [user.id] raises: the error is alerted and [onDeployWebhook] is not
    called. *)
Theorem C8_existing_team_without_user_is_not_notified :
  run_through (step example_key) (λ _, True) (mounted restored_props [] ∅).1
    [Settle 0 (ContextResolved context_without_viewer); Change "T1"]
    userless_world
  ∧ pending userless_world !! 0
    = Some (AwaitCheck object_one None "lin_api_1")
  ∧ match step example_key userless_world
            (Settle 0 (CheckResolved installed)) with
    | Some (w', t) =>
        t = [Alert ("Error checking for existing labels: "
                      +:+ show (TypeError "id"))]
        ∧ deployed (state w') = true
    | None => False
    end.
Proof.
  split.
  - simpl. eexists _, _. split; [vm_compute; reflexivity|]. split; [exact I|].
    eexists _, _. split; [vm_compute; reflexivity|]. split; [exact I|].
    vm_compute. reflexivity.
  - vm_compute. repeat split.
Qed.

(** ** Instances of the theorems *)


(** A deployment from [checked_world] whose provisioning is rejected. *)
Lemma C2_failed_provisioning_is_reported_and_marked_deployed_witness :
  chosenTeam (state checked_world) = Some object_one
  ∧ deployed (state checked_world) = false
  ∧ ∃ w1 : World,
      fire example_key checked_world ClickDeploy
        = Some (w1, [SaveLinearContext "lin_api_1" team_one;
                     SetLinearWebhook "lin_api_1" "T1"])
      ∧ deployed (state w1) = true
      ∧ ∃ w2 : World,
          fire example_key w1 (Settle 1 (Rejected "500"))
            = Some (w2, [Alert "Error deploying webhook: 500"])
          ∧ deployed (state w2) = true.
Proof.
  assert (Hc : chosenTeam (state checked_world) = Some object_one).
  { vm_compute. reflexivity. }
  assert (Hd : deployed (state checked_world) = false).
  { vm_compute. reflexivity. }
  destruct (C2_failed_provisioning_is_reported_and_marked_deployed
              example_key checked_world object_one Hc Hd)
    as (w1 & Hf & Hd1 & _ & Hrej & _).
  split; [exact Hc|]. split; [exact Hd|].
  exists w1. split; [exact Hf|]. split; [exact Hd1|]. exact (Hrej "500").
Defined.

(** A return with the stored code, and the same return against another
    stored code. *)
Lemma C4_return_state_is_checked_against_the_stored_code_witness :
  (get return_search "code" = Some "abc"
   ∧ get return_search "state" = Some "linear-1234"
   ∧ includes "linear-1234" "linear" = true)
  ∧ (mounted fresh_props return_search return_storage).2
    = [ExchangeLinearToken (Some "abc")]
  ∧ (mounted fresh_props return_search
       {["linear-verification" := "linear-9999"]}).2
    = [Alert "Linear auth returned an invalid code. Please try again."].
Proof.
  split; [repeat split|]. split.
  - destruct (C4_return_state_is_checked_against_the_stored_code
                fresh_props return_search return_storage "abc" "linear-1234"
                eq_refl eq_refl eq_refl) as (_ & Hsame & _).
    destruct (Hsame eq_refl) as [Ht _]. exact Ht.
  - destruct (C4_return_state_is_checked_against_the_stored_code
                fresh_props return_search
                {["linear-verification" := "linear-9999"]} "abc"
                "linear-1234" eq_refl eq_refl eq_refl) as (Hdiff & _).
    assert (Hne : ({["linear-verification" := "linear-9999"]}
                     : gmap string string) !! "linear-verification"
                  ≠ Some "linear-1234").
    { intros H. vm_compute in H. discriminate H. }
    destruct (Hdiff Hne) as [Ht _]. exact Ht.
Defined.

(** Two clicks from [checked_world], and a click before any team is
    chosen. *)
Lemma C5_deploy_is_guarded_and_provisions_once_witness :
  chosenTeam (state checked_world) = Some object_one
  ∧ deployed (state checked_world) = false
  ∧ (∃ (w1 : World) (t1 : list Effect) (w2 : World) (t2 : list Effect),
       fire example_key checked_world ClickDeploy = Some (w1, t1)
       ∧ fire example_key w1 ClickDeploy = Some (w2, t2)
       ∧ (webhook_calls (t1 ++ t2) ≤ 1)%nat
       ∧ webhook_calls t1 = 1%nat ∧ t2 = [])
  ∧ chosenTeam (state (mounted restored_props [] ∅).1) = None
  ∧ fire example_key (mounted restored_props [] ∅).1 ClickDeploy
    = Some ((mounted restored_props [] ∅).1, []).
Proof.
  assert (Hc : chosenTeam (state checked_world) = Some object_one).
  { vm_compute. reflexivity. }
  assert (Hd : deployed (state checked_world) = false).
  { vm_compute. reflexivity. }
  assert (Hn : chosenTeam (state (mounted restored_props [] ∅).1) = None).
  { vm_compute. reflexivity. }
  destruct (C5_deploy_is_guarded_and_provisions_once example_key
              checked_world)
    as (_ & w1 & t1 & w2 & t2 & H1 & H2 & H3 & H4).
  destruct (H4 object_one Hc Hd) as (Hone & Hnil & _).
  destruct (C5_deploy_is_guarded_and_provisions_once example_key
              (mounted restored_props [] ∅).1) as (Hguard & _).
  split; [exact Hc|]. split; [exact Hd|]. split.
  - exists w1, t1, w2, t2. repeat split; assumption.
  - split; [exact Hn|]. exact (Hguard (or_introl Hn)).
Defined.

(** A return of another provider's flow. *)
Lemma C9_return_without_marker_is_ignored_witness :
  optional_includes
    (get [("code", "abc"); ("state", "github-5678")] "state") "linear"
    = false
  ∧ (mounted fresh_props [("code", "abc"); ("state", "github-5678")]
       return_storage).2 = [].
Proof.
  split; [reflexivity|].
  destruct (C9_return_without_marker_is_ignored fresh_props
              [("code", "abc"); ("state", "github-5678")] return_storage
              eq_refl) as [Ht _].
  exact Ht.
Defined.

(** The check of [userless_world] and the check of [checking_world], both
    answered with [exists: true]. *)
Lemma C10_existing_team_callback_needs_the_user_descriptor_witness :
  reach (fire example_key) unpopulated (mounted restored_props [] ∅).1
    userless_world
  ∧ pending userless_world !! 0
    = Some (AwaitCheck object_one None "lin_api_1")
  ∧ (∃ (w' : World) (t : list Effect),
       fire example_key userless_world (Settle 0 (CheckResolved installed))
         = Some (w', t)
       ∧ t = [Alert ("Error checking for existing labels: "
                       +:+ show (TypeError "id"))])
  ∧ pending checking_world !! 0
    = Some (AwaitCheck object_one (Some {| id := "U1" |}) "lin_api_1")
  ∧ (∃ w' : World,
       fire example_key checking_world (Settle 0 (CheckResolved installed))
         = Some (w', [OnDeployWebhook
                        {| userId := "U1"; teamId := "T1";
                           apiKey := "lin_api_1" |}])).
Proof.
  assert (Hr : reach (fire example_key) unpopulated
                 (mounted restored_props [] ∅).1 userless_world).
  { eapply (run_through_reach _ _ _ _ _
              [Settle 0 (ContextResolved context_without_viewer);
               Change "T1"]);
      [apply reach_here; reflexivity|].
    simpl. eexists _, _. split; [vm_compute; reflexivity|].
    split; [reflexivity|].
    eexists _, _. split; [vm_compute; reflexivity|]. split; [reflexivity|].
    vm_compute. reflexivity. }
  assert (Hp : pending userless_world !! 0
               = Some (AwaitCheck object_one None "lin_api_1")).
  { vm_compute. reflexivity. }
  assert (Hq : pending checking_world !! 0
               = Some (AwaitCheck object_one (Some {| id := "U1" |})
                                  "lin_api_1")).
  { vm_compute. reflexivity. }
  destruct (C10_existing_team_callback_needs_the_user_descriptor
              example_key restored_props [] ∅ userless_world 0 object_one
              None "lin_api_1" Hr Hp) as [(w' & t & Hf & Ht & _) Hwith].
  split; [exact Hr|]. split; [exact Hp|]. split.
  - exists w', t. split; assumption.
  - split; [exact Hq|]. exact (Hwith checking_world 0 {| id := "U1" |} Hq).
Defined.

(** ** Instances of the further properties *)

(** The exchange of [exchanging_world] resolves with a token. *)
Lemma X3_exchanged_token_is_stored_and_announced_witness :
  pending exchanging_world !! 0 = Some AwaitExchange
  ∧ truthy "tok" = true
  ∧ ∃ w' : World,
      fire example_key exchanging_world exchange_with_token
        = Some (w', [OnAuth "tok"; GetLinearContext "tok"])
      ∧ accessToken (state w') = "tok"
      ∧ search w' = return_search.
Proof.
  assert (Hp : pending exchanging_world !! 0 = Some AwaitExchange).
  { vm_compute. reflexivity. }
  destruct (X3_exchanged_token_is_stored_and_announced example_key
              exchanging_world 0 "tok" Hp eq_refl)
    as (w' & Hf & Ha & _ & Hs & _).
  split; [exact Hp|]. split; [reflexivity|].
  exists w'. split; [exact Hf|]. split; [exact Ha | exact Hs].
Defined.

(** The same event calls no exchange. *)
Lemma X4_no_event_calls_the_exchange_witness :
  match fire example_key exchanging_world exchange_with_token with
  | Some (w', t) => ∀ code, ¬ In (ExchangeLinearToken code) t
  | None => False
  end.
Proof.
  destruct (fire example_key exchanging_world exchange_with_token)
    as [[w' t]|] eqn:Hf.
  - exact (proj1 (X4_no_event_calls_the_exchange example_key
                    exchanging_world exchange_with_token w' t Hf)).
  - vm_compute in Hf. discriminate Hf.
Defined.

(** The first commit on a verified return. *)
Lemma X5_first_commit_exchanges_exactly_a_verified_return_witness :
  (has return_search "code" = true
   ∧ optional_includes (get return_search "state") "linear" = true
   ∧ get return_search "state" = return_storage !! "linear-verification")
  ∧ In (ExchangeLinearToken (Some "abc"))
       (mounted fresh_props return_search return_storage).2.
Proof.
  assert (Hs : get return_search "state"
               = return_storage !! "linear-verification").
  { vm_compute. reflexivity. }
  split; [split; [reflexivity|split; [reflexivity|exact Hs]]|].
  apply (proj2 (proj1 (X5_first_commit_exchanges_exactly_a_verified_return
                         fresh_props return_search return_storage
                         (Some "abc")))).
  split; [reflexivity|]. split; [reflexivity|].
  split; [exact Hs | reflexivity].
Defined.

(** The check of [checking_world] is rejected, then the button is clicked. *)
Lemma X6_rejected_check_leaves_the_deployment_open_witness :
  pending checking_world !! 0
    = Some (AwaitCheck object_one (Some {| id := "U1" |}) "lin_api_1")
  ∧ chosenTeam (state checking_world) = Some object_one
  ∧ deployed (state checking_world) = false
  ∧ ∃ w1 w2 : World,
      fire example_key checking_world (Settle 0 (Rejected "timeout"))
        = Some (w1, [Alert "Error checking for existing labels: timeout"])
      ∧ fire example_key w1 ClickDeploy
        = Some (w2, [SaveLinearContext "lin_api_1" team_one;
                     SetLinearWebhook "lin_api_1" "T1"]).
Proof.
  assert (Hp : pending checking_world !! 0
               = Some (AwaitCheck object_one (Some {| id := "U1" |})
                                  "lin_api_1")).
  { vm_compute. reflexivity. }
  assert (Hc : chosenTeam (state checking_world) = Some object_one).
  { vm_compute. reflexivity. }
  assert (Hd : deployed (state checking_world) = false).
  { vm_compute. reflexivity. }
  destruct (X6_rejected_check_leaves_the_deployment_open example_key
              checking_world 0 object_one (Some {| id := "U1" |})
              "lin_api_1" "timeout" object_one Hp Hc Hd)
    as (w1 & w2 & H1 & _ & _ & H2 & _).
  split; [exact Hp|]. split; [exact Hc|]. split; [exact Hd|].
  exists w1, w2. split; [exact H1 | exact H2].
Defined.

(** From [deploying_world] to [saved_world]. *)
Lemma X7_deployed_is_final_through_the_markup_witness :
  deployed_for_good deploying_world
  ∧ reach (step example_key) (λ _, True) deploying_world saved_world
  ∧ deployed (state saved_world) = true
  ∧ (∀ value, step example_key saved_world (Change value) = None).
Proof.
  assert (H0 : deployed_for_good deploying_world).
  { split; [vm_compute; reflexivity|]. intros pd Hin.
    vm_compute in Hin. destruct Hin as [<-|[<-|[]]]; reflexivity. }
  assert (Hr : reach (step example_key) (λ _, True) deploying_world
                 saved_world).
  { eapply (run_through_reach _ _ _ _ _ [Settle 0 SaveResolved]);
      [apply reach_here; exact I|].
    simpl. eexists _, _. split; [vm_compute; reflexivity|]. split; [exact I|].
    vm_compute. reflexivity. }
  destruct (X7_deployed_is_final_through_the_markup example_key
              deploying_world saved_world H0 Hr) as ([Hd _] & Hs & _).
  split; [exact H0|]. split; [exact Hr|]. split; [exact Hd | exact Hs].
Defined.

(** [checking_world], where the check of [T1] is in flight. *)
Lemma X8_loading_is_set_exactly_while_a_request_is_in_flight_witness :
  reach (step example_key) (λ _, True) (mounted restored_props [] ∅).1
    checking_world
  ∧ (length (in_flight checking_world) ≤ 1)%nat
  ∧ (loading (state checking_world) = true ↔ in_flight checking_world ≠ []).
Proof.
  assert (Hr : reach (step example_key) (λ _, True)
                 (mounted restored_props [] ∅).1 checking_world).
  { eapply (run_through_reach _ _ _ _ _
              [Settle 0 (ContextResolved full_context); Change "T1"]);
      [apply reach_here; exact I|].
    simpl. eexists _, _. split; [vm_compute; reflexivity|]. split; [exact I|].
    eexists _, _. split; [vm_compute; reflexivity|]. split; [exact I|].
    vm_compute. reflexivity. }
  split; [exact Hr|].
  exact (X8_loading_is_set_exactly_while_a_request_is_in_flight example_key
           restored_props [] ∅ checking_world Hr).
Defined.

(** A deployment from [checked_world] whose save is rejected. *)
Lemma X9_failed_save_does_not_stop_the_deployment_witness :
  chosenTeam (state checked_world) = Some object_one
  ∧ deployed (state checked_world) = false
  ∧ user (state checked_world) = Some {| id := "U1" |}
  ∧ ∃ w' : World,
      run (fire example_key) checked_world
        [ClickDeploy; Settle 0 (Rejected "quota"); Settle 0 WebhookResolved]
        = Some (w',
                [SaveLinearContext "lin_api_1" team_one;
                 SetLinearWebhook "lin_api_1" "T1";
                 Alert "Error saving labels to DB: quota";
                 OnDeployWebhook
                   {| userId := "U1"; teamId := "T1";
                      apiKey := "lin_api_1" |}])
      ∧ deployed (state w') = true.
Proof.
  assert (Hc : chosenTeam (state checked_world) = Some object_one).
  { vm_compute. reflexivity. }
  assert (Hd : deployed (state checked_world) = false).
  { vm_compute. reflexivity. }
  assert (Hu : user (state checked_world) = Some {| id := "U1" |}).
  { vm_compute. reflexivity. }
  destruct (X9_failed_save_does_not_stop_the_deployment example_key
              checked_world object_one {| id := "U1" |} "quota" Hc Hd Hu)
    as (w' & Hrun & Hdep & _).
  split; [exact Hc|]. split; [exact Hd|]. split; [exact Hu|].
  exists w'. split; [exact Hrun | exact Hdep].
Defined.


(** The restored key is withdrawn from [checked_world], and supplied to a
    component that was mounted without one. *)
Lemma X11_restored_key_replaces_the_token_and_is_never_withdrawn_witness :
  (truthy (restoredApiKey fresh_props) = false
   ∧ fire example_key checked_world (SetProps fresh_props)
     = Some (with_props fresh_props checked_world, []))
  ∧ (truthy (restoredApiKey restored_props) = true
     ∧ restoredApiKey restored_props
       ≠ restoredApiKey (props (mounted fresh_props [] ∅).1)
     ∧ ∃ w' : World,
         fire example_key (mounted fresh_props [] ∅).1
              (SetProps restored_props)
           = Some (w', [OnAuth "lin_api_1"; GetLinearContext "lin_api_1"])
         ∧ accessToken (state w') = "lin_api_1").
Proof.
  split.
  - split; [reflexivity|].
    exact (proj1 (X11_restored_key_replaces_the_token_and_is_never_withdrawn
                    example_key checked_world fresh_props)
             (or_introl eq_refl)).
  - assert (Hne : restoredApiKey restored_props
                  ≠ restoredApiKey (props (mounted fresh_props [] ∅).1)).
    { intros H. vm_compute in H. discriminate H. }
    destruct (proj2 (X11_restored_key_replaces_the_token_and_is_never_withdrawn
                       example_key (mounted fresh_props [] ∅).1
                       restored_props) eq_refl Hne) as (w' & Hf & Ha & _).
    split; [reflexivity|]. split; [exact Hne|].
    exists w'. split; [exact Hf | exact Ha].
Defined.

(** The restored key is withdrawn from [checked_world]. *)
Lemma X12_a_token_once_held_is_never_given_up_witness :
  truthy (accessToken (state checked_world)) = true
  ∧ match fire example_key checked_world (SetProps fresh_props) with
    | Some (w', t) =>
        truthy (accessToken (state w')) = true ∧ connect_disabled w' = true
    | None => False
    end.
Proof.
  assert (Ht : truthy (accessToken (state checked_world)) = true).
  { vm_compute. reflexivity. }
  split; [exact Ht|].
  destruct (fire example_key checked_world (SetProps fresh_props))
    as [[w' t]|] eqn:Hf.
  - exact (X12_a_token_once_held_is_never_given_up example_key
             checked_world (SetProps fresh_props) w' t Ht Hf).
  - vm_compute in Hf. discriminate Hf.
Defined.

(** An unknown id and the id of the chosen team, selected in
    [checked_world]. *)
Lemma X13_change_without_a_new_team_starts_no_check_witness :
  (List.find (λ t, String.eqb (team_id (team t)) "T9")
             (teams (state checked_world)) = None
   ∧ fire example_key checked_world (Change "T9")
     = Some (with_state (set_chosenTeam None) checked_world, []))
  ∧ (List.find (λ t, String.eqb (team_id (team t)) "T1")
               (teams (state checked_world)) = Some object_one
     ∧ same_ref (chosenTeam (state checked_world)) (Some object_one) = true
     ∧ fire example_key checked_world (Change "T1")
       = Some (with_state (set_chosenTeam (Some object_one)) checked_world,
               [])).
Proof.
  assert (Hn : List.find (λ t, String.eqb (team_id (team t)) "T9")
                 (teams (state checked_world)) = None).
  { vm_compute. reflexivity. }
  assert (Hf : List.find (λ t, String.eqb (team_id (team t)) "T1")
                 (teams (state checked_world)) = Some object_one).
  { vm_compute. reflexivity. }
  assert (Hr : same_ref (chosenTeam (state checked_world))
                 (Some object_one) = true).
  { vm_compute. reflexivity. }
  split.
  - split; [exact Hn|].
    exact (proj1 (proj1 (X13_change_without_a_new_team_starts_no_check
                           example_key checked_world "T9") Hn)).
  - split; [exact Hf|]. split; [exact Hr|].
    exact (proj2 (X13_change_without_a_new_team_starts_no_check
                    example_key checked_world "T1") object_one Hf Hr).
Defined.

(** A return of the authorization [1234], before and after the
    authorization [5678] was started. *)
Lemma X14_return_of_the_latest_authorization_is_exchanged_witness :
  get return_search "code" = Some "abc"
  ∧ get return_search "state" = Some ("linear-" +:+ "1234")
  ∧ "5678" ≠ "1234"
  ∧ (mounted fresh_props return_search
       (localStorage
          (openLinearAuth "1234" (initial_world fresh_props [] ∅)).1.1)).2
    = [ExchangeLinearToken (Some "abc")]
  ∧ (mounted fresh_props return_search
       (localStorage
          ((openLinearAuth "1234" ;; openLinearAuth "5678")%js
             (initial_world fresh_props [] ∅)).1.1)).2
    = [Alert "Linear auth returned an invalid code. Please try again."].
Proof.
  assert (Hne : "5678" ≠ "1234").
  { intros H. discriminate H. }
  destruct (X14_return_of_the_latest_authorization_is_exchanged
              "1234" "5678" "abc" fresh_props return_search
              (initial_world fresh_props [] ∅) eq_refl eq_refl)
    as [H1 H2].
  split; [reflexivity|]. split; [reflexivity|]. split; [exact Hne|].
  split; [exact H1 | exact (H2 Hne)].
Defined.

(** The context fetch that follows the exchange of [exchanging_world]. *)
Lemma X15_context_is_requested_right_after_onAuth_witness :
  match fire example_key exchanging_world exchange_with_token with
  | Some (w', t) =>
      t = [OnAuth "tok"] ++ GetLinearContext "tok" :: []
      ∧ (∃ before, [OnAuth "tok"] = before ++ [OnAuth "tok"])
      ∧ user_id_truthy (user (state w')) = false
      ∧ In AwaitContext (pending w')
  | None => False
  end.
Proof.
  destruct (fire example_key exchanging_world exchange_with_token)
    as [[w' t]|] eqn:Hf.
  - assert (Ht : t = [OnAuth "tok"] ++ GetLinearContext "tok" :: []).
    { pose proof Hf as Hc. vm_compute in Hc. injection Hc as _ Ht.
      rewrite <- Ht. reflexivity. }
    destruct (X15_context_is_requested_right_after_onAuth
                example_key exchanging_world exchange_with_token w' t
                [OnAuth "tok"] [] "tok" Hf Ht) as (Hb & Hu & _ & Hp).
    split; [exact Ht|]. split; [exact Hb|]. split; [exact Hu | exact Hp].
  - vm_compute in Hf. discriminate Hf.
Defined.

(** The context of a restored session arrives and [T2] is selected. *)
Lemma X16_selected_id_is_checked_for_its_first_team_witness :
  pending (mounted restored_props [] ∅).1 !! 0 = Some AwaitContext
  ∧ chosenTeam (state (mounted restored_props [] ∅).1) = None
  ∧ In team_two [team_one; team_two]
  ∧ ∃ (w1 w2 : World) (chosen : TeamObj) (before after : list LinearTeam),
      fire example_key (mounted restored_props [] ∅).1
           (Settle 0 (ContextResolved full_context)) = Some (w1, [])
      ∧ fire example_key w1 (Change "T2")
        = Some (w2, [CheckForExistingTeam "T2"])
      ∧ chosenTeam (state w2) = Some chosen
      ∧ team_id (team chosen) = "T2"
      ∧ [team_one; team_two] = before ++ team chosen :: after
      ∧ (∀ x, In x before → team_id x ≠ "T2").
Proof.
  assert (Hp : pending (mounted restored_props [] ∅).1 !! 0
               = Some AwaitContext).
  { vm_compute. reflexivity. }
  assert (Hc : chosenTeam (state (mounted restored_props [] ∅).1) = None).
  { vm_compute. reflexivity. }
  assert (Hin : In team_two [team_one; team_two]).
  { right. left. reflexivity. }
  destruct (X16_selected_id_is_checked_for_its_first_team example_key
              (mounted restored_props [] ∅).1 0 [team_one; team_two]
              {| id := "U1" |} team_two Hp Hc Hin)
    as (w1 & w2 & chosen & before & after & H1 & _ & H2 & H3 & H4 & H5 & H6
        & _).
  split; [exact Hp|]. split; [exact Hc|]. split; [exact Hin|].
  exists w1, w2, chosen, before, after. split; [exact H1|].
  split; [exact H2|]. split; [exact H3|]. split; [exact H4|].
  split; [exact H5 | exact H6].
Defined.

(** The provisioning of [userless_deploying_world] succeeds. *)
Lemma X17_provisioning_without_user_is_reported_as_an_error_witness :
  reach (fire example_key) unpopulated (mounted restored_props [] ∅).1
    userless_deploying_world
  ∧ pending userless_deploying_world !! 2
    = Some (AwaitWebhook object_one None "lin_api_1")
  ∧ ∃ w' : World,
      fire example_key userless_deploying_world (Settle 2 WebhookResolved)
        = Some (w', [Alert ("Error deploying webhook: "
                              +:+ show (TypeError "id"))])
      ∧ deployed (state w') = true.
Proof.
  assert (Hr : reach (fire example_key) unpopulated
                 (mounted restored_props [] ∅).1 userless_deploying_world).
  { eapply (run_through_reach _ _ _ _ _
              [Settle 0 (ContextResolved context_without_viewer);
               Change "T1"; ClickDeploy]);
      [apply reach_here; reflexivity|].
    simpl. eexists _, _. split; [vm_compute; reflexivity|].
    split; [reflexivity|].
    eexists _, _. split; [vm_compute; reflexivity|]. split; [reflexivity|].
    eexists _, _. split; [vm_compute; reflexivity|]. split; [reflexivity|].
    vm_compute. reflexivity. }
  assert (Hp : pending userless_deploying_world !! 2
               = Some (AwaitWebhook object_one None "lin_api_1")).
  { vm_compute. reflexivity. }
  split; [exact Hr|]. split; [exact Hp|].
  exact (X17_provisioning_without_user_is_reported_as_an_error example_key
           restored_props [] ∅ userless_deploying_world 2 object_one None
           "lin_api_1" Hr Hp).
Defined.
